(** * HCC Compression Advisor dashboard: the Integration Gateway

    A shallow embedding of the three access components of the dashboard
    and of the configuration they read:

    - [Config]  : [config.py], class [Config];
    - [Auth]    : [auth.py], class [AuthManager] (the Session Guard);
    - [Db]      : [utils/db_connector.py], class [DatabaseConnector];
    - [Api]     : [utils/api_client.py], class [ORDSClient];
    - [ConnectionTest] : [test_connection.py], the check of the SSL files.

    Python code that mutates state and raises exceptions is written in a
    state-and-exception monad [M W]: a computation takes the world [W] it
    runs in and gives back either a value or the exception it raised,
    together with the world it leaves behind.  Mutations made before an
    exception is raised stay in the world, as in Python. *)

From Stdlib Require Import ZArith QArith_base Ascii.
From stdpp Require Import base option list gmap strings pretty.

#[local] Open Scope string_scope.
#[local] Open Scope Z_scope.

(** ** Python exceptions *)

(** The exception classes the code raises, catches or lets through.  The
    first six are [requests.exceptions.RequestException] and subclasses of
    it; [OracledbError] stands for [oracledb.Error] and its subclasses;
    [OverflowError] is what [timedelta] raises beyond its range;
    [StopException] and [RerunException] are the script-control exceptions
    that [st.stop()] and [st.rerun()] raise. *)
Inductive exc_class : Set :=
  | Timeout
  | ConnectionError
  | SSLError
  | HTTPError
  | RequestsJSONDecodeError
  | RequestException
  | OracledbError
  | AttributeError
  | TypeError
  | ValueError
  | OverflowError
  | OtherException
  | StopException
  | RerunException.

(** An exception object: its class and the text [str(e)] gives. *)
Record exn : Set := Exn { exn_class : exc_class; exn_str : string }.

(** [isinstance(e, requests.exceptions.RequestException)] *)
Definition is_RequestException (e : exn) : bool :=
  match exn_class e with
  | Timeout | ConnectionError | SSLError | HTTPError
  | RequestsJSONDecodeError | RequestException => true
  | _ => false
  end.

(** [isinstance(e, oracledb.Error)] *)
Definition is_oracledb_Error (e : exn) : bool :=
  match exn_class e with
  | OracledbError => true
  | _ => false
  end.

(** [isinstance(e, Exception)]: everything but the script-control
    exceptions, which derive from [BaseException]. *)
Definition is_Exception (e : exn) : bool :=
  match exn_class e with
  | StopException | RerunException => false
  | _ => true
  end.


(** ** The state-and-exception monad *)

Inductive Result (A : Type) : Type :=
  | Ok (a : A)
  | Raise (e : exn).
Arguments Ok {A} a.
Arguments Raise {A} e.

Definition M (W A : Type) : Type := W → Result A * W.

#[global] Instance M_ret {W} : MRet (M W) := λ A a w, (Ok a, w).

#[global] Instance M_bind {W} : MBind (M W) := λ A B f m w,
  match m w with
  | (Ok a, w') => f a w'
  | (Raise e, w') => (Raise e, w')
  end.

(** [raise e] *)
Definition raise {W A} (e : exn) : M W A := λ w, (Raise e, w).

(** Read the world, or change it. *)
Definition gets {W A} (f : W → A) : M W A := λ w, (Ok (f w), w).
Definition modify {W} (f : W → W) : M W unit := λ w, (Ok (), f w).

(** [try: body / except C as e: handler(e)], where [catches] decides
    [isinstance(e, C)]. *)
Definition try_except {W A}
    (body : M W A) (catches : exn → bool) (handler : exn → M W A) : M W A :=
  λ w, match body w with
       | (Ok a, w') => (Ok a, w')
       | (Raise e, w') => if catches e then handler e w' else (Raise e, w')
       end.

(** [try: body / finally: final]: [final] runs on every exit of [body];
    an exception of [final] replaces the outcome of [body]. *)
Definition try_finally {W A} (body : M W A) (final : M W unit) : M W A :=
  λ w, match body w with
       | (r, w1) =>
           match final w1 with
           | (Ok _, w2) => (r, w2)
           | (Raise e, w2) => (Raise e, w2)
           end
       end.

(** Run [m] and hand its outcome, value or exception, to what follows. *)
Definition attempt {W A} (m : M W A) : M W (Result A) :=
  λ w, match m w with
       | (r, w') => (Ok r, w')
       end.

(** [m] keeps [P]: run in a world where [P] holds, it leaves a world
    where [P] holds, whether it returns or raises. *)
Definition preserves {W A} (P : W → Prop) (m : M W A) : Prop :=
  ∀ w, P w → P (snd (m w)).

(** ** Python values *)

(** The values that travel in query parameters, JSON bodies and JSON
    responses.  A [float] is kept as the rational it denotes. *)
#[local] Unset Elimination Schemes.
Inductive pyval : Type :=
  | PNone
  | PBool (b : bool)
  | PInt (z : Z)
  | PFloat (q : Q)
  | PStr (s : string)
  | PList (l : list pyval)
  | PDict (d : gmap string pyval).
#[local] Set Elimination Schemes.

(** [bool(s)] for a string: only the empty string is falsy. *)
Definition str_truthy (s : string) : bool :=
  match s with
  | EmptyString => false
  | String _ _ => true
  end.

(** [s.lstrip('/')] and [s.rstrip('/')] *)
Fixpoint lstrip_slash (s : string) : string :=
  match s with
  | String "/"%char rest => lstrip_slash rest
  | _ => s
  end.

Fixpoint rstrip_slash (s : string) : string :=
  match s with
  | EmptyString => EmptyString
  | String c rest =>
      match rstrip_slash rest with
      | EmptyString => if Ascii.eqb c "/"%char then EmptyString else String c EmptyString
      | rest' => String c rest'
      end
  end.

(** ** [config.py] *)

Module Config.

(** The settings of class [Config] that the gateways and the session
    guard read. *)
Record Config : Type := {
  SESSION_TIMEOUT_MINUTES : Z;
  MAX_LOGIN_ATTEMPTS : Z;
  DASHBOARD_PASSWORD : string;
  DB_HOST : string;
  DB_PORT : Z;
  DB_SERVICE : string;
  DB_USER : string;
  DB_PASSWORD : string;
  ORDS_BASE_URL : string;
  ORDS_USERNAME : string;
  ORDS_PASSWORD : string;
  SSL_ENABLED : bool;
  POOL_MIN : Z;
  POOL_MAX : Z;
  POOL_INCREMENT : Z;
  API_TIMEOUT : Z
}.

(** The configuration of a process started with an empty environment:
    every [os.getenv] falls back to its default. *)
Definition defaults : Config := {|
  SESSION_TIMEOUT_MINUTES := 30;
  MAX_LOGIN_ATTEMPTS := 3;
  DASHBOARD_PASSWORD := "admin123";
  DB_HOST := "localhost";
  DB_PORT := 1521;
  DB_SERVICE := "XEPDB1";
  DB_USER := "hcc_advisor";
  DB_PASSWORD := "";
  ORDS_BASE_URL := "https://localhost:8443/ords/hcc_advisor";
  ORDS_USERNAME := "hcc_advisor";
  ORDS_PASSWORD := "";
  SSL_ENABLED := true;
  POOL_MIN := 2;
  POOL_MAX := 10;
  POOL_INCREMENT := 1;
  API_TIMEOUT := 30
|}.

(** [cfg] with another [SESSION_TIMEOUT_MINUTES]. *)
Definition with_session_timeout (minutes : Z) (cfg : Config) : Config := {|
  SESSION_TIMEOUT_MINUTES := minutes;
  MAX_LOGIN_ATTEMPTS := MAX_LOGIN_ATTEMPTS cfg;
  DASHBOARD_PASSWORD := DASHBOARD_PASSWORD cfg;
  DB_HOST := DB_HOST cfg;
  DB_PORT := DB_PORT cfg;
  DB_SERVICE := DB_SERVICE cfg;
  DB_USER := DB_USER cfg;
  DB_PASSWORD := DB_PASSWORD cfg;
  ORDS_BASE_URL := ORDS_BASE_URL cfg;
  ORDS_USERNAME := ORDS_USERNAME cfg;
  ORDS_PASSWORD := ORDS_PASSWORD cfg;
  SSL_ENABLED := SSL_ENABLED cfg;
  POOL_MIN := POOL_MIN cfg;
  POOL_MAX := POOL_MAX cfg;
  POOL_INCREMENT := POOL_INCREMENT cfg;
  API_TIMEOUT := API_TIMEOUT cfg
|}.

(** The SSL file settings of class [Config]. *)
Record SslFiles : Type := {
  SSL_CERT_FILE : string;
  SSL_KEY_FILE : string
}.

Definition ssl_defaults : SslFiles := {|
  SSL_CERT_FILE := "ssl/cert.pem";
  SSL_KEY_FILE := "ssl/key.pem"
|}.

(** What [pathlib] and the file system give.  A path is kept as the
    text [str] gives for it: [under_parent name] is
    [Path(__file__).parent / name].  [path_exists n p] is the outcome of
    the call [p.exists()] made after [n] earlier calls: an answer, or
    the exception of the operating system.  Files may come and go
    between two calls. *)
Record FileSystem : Type := {
  under_parent : string → string;
  path_exists : nat → string → Result bool
}.

(** The world of the checks: how many times the file system has been
    asked, and the lines printed so far. *)
Record Host : Type := {
  asked : nat;
  printed : list string
}.

Section Checks.
Variable fs : FileSystem.
Variable cfg : Config.
Variable ssl : SslFiles.

(** [path.exists()] *)
Definition exists_ (path : string) : M Host bool := λ w,
  (path_exists fs (asked w) path,
   {| asked := S (asked w); printed := printed w |}).

Definition get_ssl_context : M Host (option (string * string)) :=
  if SSL_ENABLED cfg
  then
    let cert_path := under_parent fs (SSL_CERT_FILE ssl) in
    let key_path := under_parent fs (SSL_KEY_FILE ssl) in
    cert_found ← exists_ cert_path;
    both_found ← (if cert_found : bool then exists_ key_path else mret false);
    if both_found : bool
    then mret (Some (cert_path, key_path))
    else mret None
  else mret None.

Definition validate_config : M Host (list string) :=
  let errors : list string := [] in
  let errors :=
    if negb (str_truthy (DB_PASSWORD cfg))
    then (errors ++ ["DB_PASSWORD not set"])%list
    else errors in
  let errors :=
    if negb (str_truthy (ORDS_PASSWORD cfg))
    then (errors ++ ["ORDS_PASSWORD not set"])%list
    else errors in
  if SSL_ENABLED cfg
  then
    let cert_path := under_parent fs (SSL_CERT_FILE ssl) in
    let key_path := under_parent fs (SSL_KEY_FILE ssl) in
    cert_found ← exists_ cert_path;
    let errors :=
      if negb cert_found
      then (errors ++ ["SSL certificate not found: " +:+ cert_path])%list
      else errors in
    key_found ← exists_ key_path;
    let errors :=
      if negb key_found
      then (errors ++ ["SSL key not found: " +:+ key_path])%list
      else errors in
    mret errors
  else mret errors.

End Checks.

(** A host where nothing has been asked or printed yet. *)
Definition untouched : Host := {| asked := 0%nat; printed := [] |}.

(** File systems to run the checks against.  In each the module lives
    in [/app].  In [certificates_installed] the two files of the default
    settings are there, and stay. *)
Definition in_app (name : string) : string :=
  match name with
  | String "/"%char _ => name
  | _ => "/app/" +:+ name
  end.

Definition certificates_installed : FileSystem := {|
  under_parent := in_app;
  path_exists := λ _ path,
    Ok (bool_decide (path ∈ ["/app/ssl/cert.pem"; "/app/ssl/key.pem"]))
|}.

(** A file system that refuses to look. *)
Definition permission_denied : exn :=
  Exn OtherException "[Errno 13] Permission denied: '/app/ssl/cert.pem'".

Definition unreadable : FileSystem := {|
  under_parent := in_app;
  path_exists := λ _ _, Raise permission_denied
|}.

(** A file system where the certificate is removed after the second
    call. *)
Definition certificate_removed : FileSystem := {|
  under_parent := in_app;
  path_exists := λ n path,
    Ok (bool_decide (path = "/app/ssl/key.pem")
        || bool_decide (path = "/app/ssl/cert.pem") && (n <? 2)%nat)
|}.

End Config.

(** ** [auth.py]: the Session Guard *)

Module Auth.
Import Config.

(** [st.session_state], the key-value bag the framework keeps for one
    user session.  A key may be missing, hence the options; [username]
    may be present and hold [None].  A [datetime] is the number of
    microseconds it denotes. *)
Record SessionState : Type := {
  authenticated : option bool;
  login_attempts : option Z;
  last_activity : option Z;
  username : option (option string)
}.

Definition set_authenticated (b : bool) (s : SessionState) : SessionState :=
  {| authenticated := Some b; login_attempts := login_attempts s;
     last_activity := last_activity s; username := username s |}.

Definition set_login_attempts (n : Z) (s : SessionState) : SessionState :=
  {| authenticated := authenticated s; login_attempts := Some n;
     last_activity := last_activity s; username := username s |}.

Definition set_last_activity (t : Z) (s : SessionState) : SessionState :=
  {| authenticated := authenticated s; login_attempts := login_attempts s;
     last_activity := Some t; username := username s |}.

Definition set_username (u : option string) (s : SessionState) : SessionState :=
  {| authenticated := authenticated s; login_attempts := login_attempts s;
     last_activity := last_activity s; username := Some u |}.

(** What the guard puts on the page, with the values its messages
    interpolate:
    - [ErrorMaxAttemptsExceeded max]: "Maximum login attempts (max)
      exceeded. Please try again later.";
    - [ErrorInvalidPassword r]: "Invalid password. r attempt(s)
      remaining.";
    - [ErrorMaxAttemptsReached]: "Maximum login attempts exceeded.
      Please try again later.";
    - [WarningSessionTimedOut]: "Session timed out. Please login again.";
    - [LoginForm]: the title, the rule, the columns and the password form;
    - [SuccessLogin]: "Login successful!";
    - [ErrorEnterPassword]: "Please enter a password";
    - [WarningFailedAttempts n max]: "Failed login attempts: n / max";
    - [InfoDefaultConfiguration m]: the note on the default settings. *)
Inductive Ui : Type :=
  | ErrorMaxAttemptsExceeded (max : Z)
  | ErrorInvalidPassword (remaining : Z)
  | ErrorMaxAttemptsReached
  | WarningSessionTimedOut
  | LoginForm
  | SuccessLogin
  | ErrorEnterPassword
  | WarningFailedAttempts (attempts max : Z)
  | InfoDefaultConfiguration (timeout_minutes : Z).

(** What the user did with the login form in this run of the page. *)
Record LoginFormInput : Type := {
  password_input : string;
  submit_button : bool
}.

(** The world of the guard: the session bag, the number of times the
    clock has been read, and what has been shown, oldest first. *)
Record World : Type := {
  session_state : SessionState;
  now_calls : nat;
  screen : list Ui
}.

(** [timedelta(minutes=m)], in microseconds.  A [timedelta] holds at
    most 999999999 days either way: the constructor works out the number
    of whole days, [m // 1440], and raises [OverflowError] when that is
    beyond, with one text when the number still fits a C [int] and
    another when it does not. *)
Definition max_timedelta_days : Z := 999999999.

Definition timedelta_in_range (m : Z) : bool :=
  (- max_timedelta_days <=? m `div` 1440)
  && (m `div` 1440 <=? max_timedelta_days).

Definition timedelta_overflow (m : Z) : exn :=
  let days := m `div` 1440 in
  Exn OverflowError
    (if (-2147483648 <=? days) && (days <=? 2147483647)
     then "days=" +:+ pretty days +:+ "; must have magnitude <= 999999999"
     else "Python int too large to convert to C int").

Definition timedelta_minutes (m : Z) : M World Z :=
  if timedelta_in_range m
  then mret (m * 60 * 1000000)
  else raise (timedelta_overflow m).

Definition missing_attribute {A} (name : string) : M World A :=
  raise (Exn AttributeError ("st.session_state has no attribute " +:+ name)).

Section Guard.
Variable cfg : Config.

(** The wall clock: [clock n] is what the [n]-th call of
    [datetime.now()] returns. *)
Variable clock : nat → Z.

Definition datetime_now : M World Z := λ w,
  (Ok (clock (now_calls w)),
   {| session_state := session_state w;
      now_calls := S (now_calls w);
      screen := screen w |}).

Definition show (u : Ui) : M World unit :=
  modify (λ w, {| session_state := session_state w;
                  now_calls := now_calls w;
                  screen := screen w ++ [u] |}).

Definition update (f : SessionState → SessionState) : M World unit :=
  modify (λ w, {| session_state := f (session_state w);
                  now_calls := now_calls w;
                  screen := screen w |}).

Definition initialize_session_state : M World unit :=
  s ← gets session_state;
  (if authenticated s is None then update (set_authenticated false)
   else mret ());;
  s ← gets session_state;
  (if login_attempts s is None then update (set_login_attempts 0)
   else mret ());;
  s ← gets session_state;
  (if last_activity s is None
   then now ← datetime_now; update (set_last_activity now)
   else mret ());;
  s ← gets session_state;
  (if username s is None then update (set_username None)
   else mret ()).

Definition logout : M World unit :=
  update (set_authenticated false);;
  update (set_username None);;
  now ← datetime_now;
  update (set_last_activity now).

Definition check_session_timeout : M World bool :=
  s ← gets session_state;
  match last_activity s with
  | Some last =>
      timeout ← timedelta_minutes (SESSION_TIMEOUT_MINUTES cfg);
      now ← datetime_now;
      if now - last >? timeout
      then logout;; mret true
      else mret false
  | None => mret false
  end.

Definition update_activity : M World unit :=
  now ← datetime_now;
  update (set_last_activity now).

Definition login (password : string) : M World bool :=
  s ← gets session_state;
  match login_attempts s with
  | None => missing_attribute "login_attempts"
  | Some attempts =>
      if attempts >=? MAX_LOGIN_ATTEMPTS cfg
      then show (ErrorMaxAttemptsExceeded (MAX_LOGIN_ATTEMPTS cfg));;
           mret false
      else if bool_decide (password = DASHBOARD_PASSWORD cfg)
      then update (set_authenticated true);;
           update (set_username (Some "admin"));;
           update (set_login_attempts 0);;
           now ← datetime_now;
           update (set_last_activity now);;
           mret true
      else update (set_login_attempts (attempts + 1));;
           let remaining_attempts :=
             MAX_LOGIN_ATTEMPTS cfg - (attempts + 1) in
           (if remaining_attempts >? 0
            then show (ErrorInvalidPassword remaining_attempts)
            else show ErrorMaxAttemptsReached);;
           mret false
  end.

(** [st.session_state.get('authenticated', False)] *)
Definition is_authenticated : M World bool :=
  gets (λ w, default false (authenticated (session_state w))).

Definition show_login_page (input : LoginFormInput) : M World unit :=
  show LoginForm;;
  (if submit_button input
   then if str_truthy (password_input input)
        then ok ← login (password_input input);
             if ok : bool
             then show SuccessLogin;;
                  raise (Exn RerunException "st.rerun()")
             else mret ()
        else show ErrorEnterPassword
   else mret ());;
  s ← gets session_state;
  match login_attempts s with
  | None => missing_attribute "login_attempts"
  | Some attempts =>
      (if attempts >? 0
       then show (WarningFailedAttempts attempts (MAX_LOGIN_ATTEMPTS cfg))
       else mret ());;
      show (InfoDefaultConfiguration (SESSION_TIMEOUT_MINUTES cfg))
  end.

Definition require_authentication (input : LoginFormInput) : M World unit :=
  initialize_session_state;;
  timed_out ← check_session_timeout;
  (if timed_out : bool then show WarningSessionTimedOut else mret ());;
  ok ← is_authenticated;
  if negb ok : bool
  then show_login_page input;;
       raise (Exn StopException "st.stop()")
  else update_activity.

(** The operations of the guard, and the world a sequence of them
    leaves behind.  The session bag outlives an operation that ends
    in an exception (a halted or restarted page run). *)
Inductive GuardOp : Type :=
  | Login (password : string)
  | Logout
  | CheckTimeout
  | RequireAuthentication (input : LoginFormInput).

Definition run_op (op : GuardOp) (w : World) : World :=
  match op with
  | Login password => snd (login password w)
  | Logout => snd (logout w)
  | CheckTimeout => snd (check_session_timeout w)
  | RequireAuthentication input => snd (require_authentication input w)
  end.

Definition run_ops (ops : list GuardOp) (w : World) : World :=
  fold_left (λ (w : World) (op : GuardOp), run_op op w) ops w.

(** A session that has just started: an empty bag, initialized. *)
Definition new_session : World :=
  {| session_state := {| authenticated := None; login_attempts := None;
                         last_activity := None; username := None |};
     now_calls := 0;
     screen := [] |}.

Definition initial_world : World := snd (initialize_session_state new_session).

(** The failed-attempt counter is present and within its budget. *)
Definition within_budget (w : World) : Prop :=
  ∃ n, login_attempts (session_state w) = Some n
       ∧ 0 <= n <= MAX_LOGIN_ATTEMPTS cfg.

(** The idle-timeout window in microseconds, what the [timedelta] of
    [SESSION_TIMEOUT_MINUTES] holds when it can be built. *)
Definition timeout_window : Z :=
  SESSION_TIMEOUT_MINUTES cfg * 60 * 1000000.

(** [timedelta(minutes=SESSION_TIMEOUT_MINUTES)] can be built. *)
Definition window_in_range : Prop :=
  timedelta_in_range (SESSION_TIMEOUT_MINUTES cfg) = true.

(** [last_activity] holds the latest reading of the clock. *)
Definition freshly_stamped (w : World) : Prop :=
  (0 < now_calls w)%nat
  ∧ last_activity (session_state w) = Some (clock (Nat.pred (now_calls w))).

End Guard.

End Auth.

(** ** [utils/db_connector.py]: the Database Gateway *)

Module Db.
Import Config.

(** Handles the driver gives out. *)
Definition Pool : Set := nat.
Definition Conn : Set := nat.
Definition Cursor : Set := nat.

(** A [pd.DataFrame]: column names and rows.  [pd.DataFrame()] is the
    frame with neither; building a frame from fetched rows and the
    names of the cursor's description is taken to succeed. *)
Record DataFrame : Type := {
  columns : list string;
  rows : list (list pyval)
}.

Definition empty_DataFrame : DataFrame := {| columns := []; rows := [] |}.

(** The keyword arguments of [oracledb.create_pool]. *)
Record PoolArgs : Type := {
  user : string;
  password : string;
  dsn : string;
  min : Z;
  max : Z;
  increment : Z;
  threaded : bool
}.

(** The [oracledb] driver and the database behind it, as the gateway
    sees them: [S] is their state, and every call may return or raise,
    whatever the driver decides, the release of a connection
    included; [cursor_description] gives the column names
    ([desc[0]] of each entry), or [None] when the statement was no
    query; [cursor_rowcount] is an attribute. *)
Record Driver (S : Type) : Type := {
  create_pool : PoolArgs → S → Result Pool * S;
  pool_acquire : Pool → S → Result Conn * S;
  pool_release : Pool → Conn → S → Result unit * S;
  pool_close : Pool → S → Result unit * S;
  conn_cursor : Conn → S → Result Cursor * S;
  conn_commit : Conn → S → Result unit * S;
  cursor_execute :
    Cursor → string → option (gmap string pyval) → S → Result unit * S;
  cursor_callproc :
    Cursor → string → option (list pyval) → S → Result (list pyval) * S;
  cursor_fetchall : Cursor → S → Result (list (list pyval)) * S;
  cursor_fetchone : Cursor → S → Result (option (list pyval)) * S;
  cursor_description : Cursor → S → option (list string);
  cursor_rowcount : Cursor → S → Z;
  cursor_close : Cursor → S → Result unit * S
}.
Arguments create_pool {S}.
Arguments pool_acquire {S}.
Arguments pool_release {S}.
Arguments pool_close {S}.
Arguments conn_cursor {S}.
Arguments conn_commit {S}.
Arguments cursor_execute {S}.
Arguments cursor_callproc {S}.
Arguments cursor_fetchall {S}.
Arguments cursor_fetchone {S}.
Arguments cursor_description {S}.
Arguments cursor_rowcount {S}.
Arguments cursor_close {S}.

(** The calls the gateway makes on pools.  [PoolCreated], [Acquired]
    and [PoolClosed] are recorded when the call has returned, with what
    it returned; [Released p c] is recorded when the gateway calls
    [p.release(c)], whether that call then returns or raises: it says
    that the gateway has handed the connection back, not that the
    driver has taken it. *)
Inductive Event : Set :=
  | PoolCreated (p : Pool)
  | Acquired (p : Pool) (c : Conn)
  | Released (p : Pool) (c : Conn)
  | PoolClosed (p : Pool).

(** The world of the gateway: the class attribute [_pool], the state
    of the driver, the pool calls made so far (oldest first) and the
    messages given to [st.error]. *)
Record World (S : Type) : Type := {
  _pool : option Pool;
  driver_state : S;
  calls : list Event;
  screen : list string
}.
Arguments _pool {S}.
Arguments driver_state {S}.
Arguments calls {S}.
Arguments screen {S}.

(** [bool(params)] for an optional dict: [None] and the empty dict are
    falsy. *)
Definition dict_truthy (params : option (gmap string pyval)) : bool :=
  match params with
  | None => false
  | Some d => match map_to_list d with [] => false | _ :: _ => true end
  end.

(** [bool(params)] for an optional list. *)
Definition list_truthy (params : option (list pyval)) : bool :=
  match params with
  | None | Some [] => false
  | Some (_ :: _) => true
  end.

Section Gateway.
Context {S : Type}.
Variable cfg : Config.
Variable drv : Driver S.

(** A call into the driver. *)
Definition call {A} (f : S → Result A * S) : M (World S) A := λ w,
  match f (driver_state w) with
  | (r, s) => (r, {| _pool := _pool w; driver_state := s;
                     calls := calls w; screen := screen w |})
  end.

Definition record (ev : Event) : M (World S) unit :=
  modify (λ w, {| _pool := _pool w; driver_state := driver_state w;
                  calls := calls w ++ [ev]; screen := screen w |}).

Definition set_pool (p : option Pool) : M (World S) unit :=
  modify (λ w, {| _pool := p; driver_state := driver_state w;
                  calls := calls w; screen := screen w |}).

Definition st_error (msg : string) : M (World S) unit :=
  modify (λ w, {| _pool := _pool w; driver_state := driver_state w;
                  calls := calls w; screen := screen w ++ [msg] |}).

Definition none_has_no_attribute {A} (name : string) : M (World S) A :=
  raise (Exn AttributeError
           ("'NoneType' object has no attribute '" +:+ name +:+ "'")).

Definition pool_args : PoolArgs := {|
  user := DB_USER cfg;
  password := DB_PASSWORD cfg;
  dsn := DB_HOST cfg +:+ ":" +:+ pretty (DB_PORT cfg) +:+ "/" +:+ DB_SERVICE cfg;
  min := POOL_MIN cfg;
  max := POOL_MAX cfg;
  increment := POOL_INCREMENT cfg;
  threaded := true
|}.

Definition initialize_pool : M (World S) unit :=
  p ← gets _pool;
  if p is None
  then try_except
         (pool ← call (create_pool drv pool_args);
          record (PoolCreated pool);;
          set_pool (Some pool))
         is_oracledb_Error
         (λ e, st_error ("Failed to create connection pool: " +:+ exn_str e);;
               raise e)
  else mret ().

(** [cls._pool.acquire()] and [cls._pool.release(connection)] *)
Definition acquire : M (World S) Conn :=
  p ← gets _pool;
  match p with
  | None => none_has_no_attribute "acquire"
  | Some pool =>
      connection ← call (pool_acquire drv pool);
      record (Acquired pool connection);;
      mret connection
  end.

Definition release (connection : Conn) : M (World S) unit :=
  p ← gets _pool;
  match p with
  | None => none_has_no_attribute "release"
  | Some pool =>
      record (Released pool connection);;
      call (pool_release drv pool connection)
  end.

(** The [except oracledb.Error] clause of [get_connection]. *)
Definition connection_error {A} (e : exn) : M (World S) A :=
  st_error ("Database connection error: " +:+ exn_str e);;
  raise e.

(** [with cls.get_connection() as conn: body(conn)].  The generator
    runs up to its [yield]; [body] then runs, and its outcome comes
    back into the generator at the [yield], inside the [try].
    [ensure_pool] is the first statement of the generator,
    [if cls._pool is None: cls.initialize_pool()]; [connection_scope]
    is its [try] statement: when [acquire] raises, [connection] is
    still [None] and the [finally] clause releases nothing; once a
    connection is held, the [finally] clause calls [release] on it
    however [body] ends, and an exception of that call takes the place
    of the outcome of [body]. *)
Definition ensure_pool : M (World S) unit :=
  p ← gets _pool;
  if p is None then initialize_pool else mret ().

Definition connection_scope {A} (body : Conn → M (World S) A) : M (World S) A :=
  acquired ← attempt acquire;
  match acquired with
  | Raise e =>
      try_except (raise e) is_oracledb_Error connection_error
  | Ok connection =>
      try_finally
        (try_except (body connection) is_oracledb_Error connection_error)
        (release connection)
  end.

Definition get_connection {A} (body : Conn → M (World S) A) : M (World S) A :=
  ensure_pool;;
  connection_scope body.

Definition execute (cursor : Cursor) (statement : string)
    (params : option (gmap string pyval)) : M (World S) unit :=
  if dict_truthy params
  then call (cursor_execute drv cursor statement params)
  else call (cursor_execute drv cursor statement None).

Definition execute_query (query : string)
    (params : option (gmap string pyval)) : M (World S) DataFrame :=
  try_except
    (get_connection (λ conn,
       cursor ← call (conn_cursor drv conn);
       execute cursor query params;;
       fetched ← call (cursor_fetchall drv cursor);
       description ← gets (λ w, cursor_description drv cursor (driver_state w));
       names ← match description with
               | Some names => mret names
               | None => raise (Exn TypeError "'NoneType' object is not iterable")
               end;
       let df := {| columns := names; rows := fetched |} in
       call (cursor_close drv cursor);;
       mret df))
    is_oracledb_Error
    (λ e, st_error ("Query execution error: " +:+ exn_str e);;
          mret empty_DataFrame).

Definition execute_dml (statement : string)
    (params : option (gmap string pyval)) (commit : bool) : M (World S) Z :=
  try_except
    (get_connection (λ conn,
       cursor ← call (conn_cursor drv conn);
       execute cursor statement params;;
       rows_affected ← gets (λ w, cursor_rowcount drv cursor (driver_state w));
       (if commit then call (conn_commit drv conn) else mret ());;
       call (cursor_close drv cursor);;
       mret rows_affected))
    is_oracledb_Error
    (λ e, st_error ("DML execution error: " +:+ exn_str e);;
          mret 0).

Definition execute_procedure (procedure_name : string)
    (params : option (list pyval)) : M (World S) (option (list pyval)) :=
  try_except
    (get_connection (λ conn,
       cursor ← call (conn_cursor drv conn);
       result ← (if list_truthy params
                 then call (cursor_callproc drv cursor procedure_name params)
                 else call (cursor_callproc drv cursor procedure_name None));
       call (conn_commit drv conn);;
       call (cursor_close drv cursor);;
       mret (Some result)))
    is_oracledb_Error
    (λ e, st_error ("Procedure execution error: " +:+ exn_str e);;
          mret None).

Definition test_connection : M (World S) bool :=
  try_except
    (get_connection (λ conn,
       cursor ← call (conn_cursor drv conn);
       call (cursor_execute drv cursor "SELECT 1 FROM DUAL" None);;
       call (cursor_fetchone drv cursor);;
       call (cursor_close drv cursor);;
       mret true))
    is_oracledb_Error
    (λ e, st_error ("Connection test failed: " +:+ exn_str e);;
          mret false).

Definition close_pool : M (World S) unit :=
  p ← gets _pool;
  match p with
  | Some pool =>
      call (pool_close drv pool);;
      record (PoolClosed pool);;
      set_pool None
  | None => mret ()
  end.

(** The operations that work on a connection, what each gives back, and
    the world it leaves behind, however it ends. *)
Inductive GatewayOp : Type :=
  | ExecuteQuery (query : string) (params : option (gmap string pyval))
  | ExecuteDml (statement : string) (params : option (gmap string pyval))
      (commit : bool)
  | ExecuteProcedure (procedure_name : string) (params : option (list pyval))
  | TestConnection.

Inductive OpResult : Type :=
  | Frame (df : DataFrame)
  | RowsAffected (n : Z)
  | ProcedureResult (result : option (list pyval))
  | Connected (ok : bool).

Definition perform (op : GatewayOp) : M (World S) OpResult :=
  match op with
  | ExecuteQuery query params =>
      df ← execute_query query params; mret (Frame df)
  | ExecuteDml statement params commit =>
      n ← execute_dml statement params commit; mret (RowsAffected n)
  | ExecuteProcedure name params =>
      result ← execute_procedure name params; mret (ProcedureResult result)
  | TestConnection =>
      ok ← test_connection; mret (Connected ok)
  end.

Definition run_op (op : GatewayOp) (w : World S) : World S :=
  snd (perform op w).

(** What an operation gives back when it has caught an [oracledb.Error]. *)
Definition on_error (op : GatewayOp) : OpResult :=
  match op with
  | ExecuteQuery _ _ => Frame empty_DataFrame
  | ExecuteDml _ _ _ => RowsAffected 0
  | ExecuteProcedure _ _ => ProcedureResult None
  | TestConnection => Connected false
  end.

(** The world once the driver has created pool [q], leaving itself in
    state [s], and [_pool] holds it. *)
Definition with_new_pool (q : Pool) (s : S) (w : World S) : World S :=
  {| _pool := Some q; driver_state := s;
     calls := calls w ++ [PoolCreated q]; screen := screen w |}.

(** [m] makes no call on a pool and leaves [_pool] alone. *)
Definition pool_untouched {A} (m : M (World S) A) : Prop :=
  ∀ p evs, preserves (λ w, _pool w = p ∧ calls w = evs) m.

End Gateway.

(** A driver to run the gateway against.  Its state counts the calls
    that reached the database; pool 1 is the only pool, and a connection
    or cursor bears the number of the call that opened it.  Every call
    succeeds, except the execution of [rejected_statement], which the
    database refuses with an [oracledb.Error]. *)
Definition rejected_statement : string := "SELECT * FROM missing_table".

Definition table_missing : exn :=
  Exn OracledbError "ORA-00942: table or view does not exist".

Definition counting_driver : Driver nat := {|
  create_pool := λ _ n, (Ok 1%nat, Datatypes.S n);
  pool_acquire := λ _ n, (Ok n, Datatypes.S n);
  pool_release := λ _ _ n, (Ok (), Datatypes.S n);
  pool_close := λ _ n, (Ok (), Datatypes.S n);
  conn_cursor := λ _ n, (Ok n, Datatypes.S n);
  conn_commit := λ _ n, (Ok (), Datatypes.S n);
  cursor_execute := λ _ statement _ n,
    if bool_decide (statement = rejected_statement)
    then (Raise table_missing, Datatypes.S n)
    else (Ok (), Datatypes.S n);
  cursor_callproc := λ _ _ _ n, (Ok [], Datatypes.S n);
  cursor_fetchall := λ _ n, (Ok [[PInt 1]], Datatypes.S n);
  cursor_fetchone := λ _ n, (Ok (Some [PInt 1]), Datatypes.S n);
  cursor_description := λ _ _, Some ["1"];
  cursor_rowcount := λ _ _, 1;
  cursor_close := λ _ n, (Ok (), Datatypes.S n)
|}.

(** A process that has not touched the database yet. *)
Definition no_pool_yet : World nat :=
  {| _pool := None; driver_state := 0%nat; calls := []; screen := [] |}.





(** [drv] with another [conn.commit]. *)
Definition with_commit {S} (commit : Conn → S → Result unit * S)
    (drv : Driver S) : Driver S := {|
  create_pool := create_pool drv;
  pool_acquire := pool_acquire drv;
  pool_release := pool_release drv;
  pool_close := pool_close drv;
  conn_cursor := conn_cursor drv;
  conn_commit := commit;
  cursor_execute := cursor_execute drv;
  cursor_callproc := cursor_callproc drv;
  cursor_fetchall := cursor_fetchall drv;
  cursor_fetchone := cursor_fetchone drv;
  cursor_description := cursor_description drv;
  cursor_rowcount := cursor_rowcount drv;
  cursor_close := cursor_close drv
|}.

(** [drv] with another [cursor.execute], and with another
    [pool.release]. *)
Definition with_cursor_execute {S}
    (execute :
       Cursor → string → option (gmap string pyval) → S → Result unit * S)
    (drv : Driver S) : Driver S := {|
  create_pool := create_pool drv;
  pool_acquire := pool_acquire drv;
  pool_release := pool_release drv;
  pool_close := pool_close drv;
  conn_cursor := conn_cursor drv;
  conn_commit := conn_commit drv;
  cursor_execute := execute;
  cursor_callproc := cursor_callproc drv;
  cursor_fetchall := cursor_fetchall drv;
  cursor_fetchone := cursor_fetchone drv;
  cursor_description := cursor_description drv;
  cursor_rowcount := cursor_rowcount drv;
  cursor_close := cursor_close drv
|}.

Definition with_pool_release {S}
    (release : Pool → Conn → S → Result unit * S)
    (drv : Driver S) : Driver S := {|
  create_pool := create_pool drv;
  pool_acquire := pool_acquire drv;
  pool_release := release;
  pool_close := pool_close drv;
  conn_cursor := conn_cursor drv;
  conn_commit := conn_commit drv;
  cursor_execute := cursor_execute drv;
  cursor_callproc := cursor_callproc drv;
  cursor_fetchall := cursor_fetchall drv;
  cursor_fetchone := cursor_fetchone drv;
  cursor_description := cursor_description drv;
  cursor_rowcount := cursor_rowcount drv;
  cursor_close := cursor_close drv
|}.



(** The operations whose code calls [conn.commit()]. *)
Definition commits (op : GatewayOp) : bool :=
  match op with
  | ExecuteDml _ _ commit => commit
  | ExecuteProcedure _ _ => true
  | ExecuteQuery _ _ | TestConnection => false
  end.







(** The statement of [get_table_statistics], as the source has it. *)
Definition table_statistics_query : string :=
  "
            SELECT
                num_rows,
                blocks,
                avg_row_len,
                compress_for,
                compression,
                ROUND(blocks * 8192 / 1024 / 1024, 2) as size_mb
            FROM all_tables
            WHERE owner = :owner
            AND table_name = :table_name
        ".

(** [df.empty]: the frame has no rows or no columns. *)
Definition df_empty (df : DataFrame) : bool :=
  match rows df, columns df with
  | [], _ | _, [] => true
  | _ :: _, _ :: _ => false
  end.

Section Statistics.
Context {S : Type}.
Variable cfg : Config.
Variable drv : Driver S.

(** [df.iloc[0].to_dict()], which is pandas' business. *)
Variable first_row_to_dict : DataFrame → gmap string pyval.

Definition get_table_statistics (owner table_name : string)
    : M (World S) (gmap string pyval) :=
  let query := table_statistics_query in
  df ← execute_query cfg drv query
         (Some {[ "owner" := PStr owner; "table_name" := PStr table_name ]});
  if negb (df_empty df)
  then mret (first_row_to_dict df)
  else mret ∅.

(** A sequence of operations, run one after the other. *)
Definition run_ops (ops : list GatewayOp) (w : World S) : World S :=
  fold_left (λ (w : World S) (op : GatewayOp), run_op cfg drv op w) ops w.

End Statistics.

End Db.

(** ** [utils/api_client.py]: the API Gateway *)

Module Api.
Import Config.

(** [requests.auth.HTTPBasicAuth(username, password)] *)
Record HTTPBasicAuth : Type := {
  auth_username : string;
  auth_password : string
}.

(** The keyword arguments of one call of [requests.request] (or
    [requests.get]).  [auth] and [timeout] are optional there, and
    [verify] is a flag. *)
Record Request : Type := {
  method : string;
  url : string;
  auth : option HTTPBasicAuth;
  params : option (gmap string pyval);
  json : option (gmap string pyval);
  timeout : option Z;
  verify : bool
}.

(** A [requests.Response]: the status line, the final URL, the body as
    text, and the value the body parses to when it is JSON. *)
Record Response : Type := {
  status_code : Z;
  reason : string;
  response_url : string;
  text : string;
  parsed : option pyval
}.

(** The [requests] library and the service behind it.  [send n r] is
    the outcome of the call that sends [r] after [n] earlier calls: a
    response, or an exception.  [json_error_is_request_exception] tells
    which exception [response.json()] raises on a body that is not
    JSON: [requests.exceptions.JSONDecodeError], a [RequestException],
    in recent versions of the library, a plain [ValueError] in older
    ones. *)
Record Http : Type := {
  send : nat → Request → Result Response;
  json_error_is_request_exception : bool
}.

(** The world of the gateway: the requests sent so far, oldest first,
    and the messages given to [st.error]. *)
Record World : Type := {
  sent : list Request;
  screen : list string
}.

Record ORDSClient : Type := {
  base_url : string;
  client_auth : HTTPBasicAuth;
  client_timeout : Z;
  verify_ssl : bool
}.

(** [ORDSClient.__init__] *)
Definition init (cfg : Config) : ORDSClient := {|
  base_url := rstrip_slash (ORDS_BASE_URL cfg);
  client_auth := {| auth_username := ORDS_USERNAME cfg;
                    auth_password := ORDS_PASSWORD cfg |};
  client_timeout := API_TIMEOUT cfg;
  verify_ssl := false
|}.

(** [Response.raise_for_status] of the library: an [HTTPError] for a
    status from 400 to 599, nothing otherwise.  [http_error] is the
    error it raises, if any. *)
Definition http_error (response : Response) : option exn :=
  let status := status_code response in
  if (400 <=? status) && (status <? 500)
  then Some (Exn HTTPError
               (pretty status +:+ " Client Error: " +:+ reason response
                +:+ " for url: " +:+ response_url response))
  else if (500 <=? status) && (status <? 600)
  then Some (Exn HTTPError
               (pretty status +:+ " Server Error: " +:+ reason response
                +:+ " for url: " +:+ response_url response))
  else None.

Definition raise_for_status (response : Response) : M World unit :=
  match http_error response with
  | Some e => raise e
  | None => mret ()
  end.

(** [o.get(key)] on a Python value: only a dict has the method. *)
Definition py_get (o : pyval) (key : string) : M World pyval :=
  match o with
  | PDict d => mret (default PNone (d !! key))
  | _ => raise (Exn AttributeError "object has no attribute 'get'")
  end.

(** [v == s] for a string [s] *)
Definition py_eq_str (v : pyval) (s : string) : bool :=
  match v with
  | PStr t => bool_decide (t = s)
  | _ => false
  end.

Section Client.
Variable http : Http.
Variable self : ORDSClient.

Definition st_error (msg : string) : M World unit :=
  modify (λ w, {| sent := sent w; screen := screen w ++ [msg] |}).

(** The call goes out, and the library answers or raises. *)
Definition requests_request (r : Request) : M World Response := λ w,
  (send http (length (sent w)) r,
   {| sent := sent w ++ [r]; screen := screen w |}).

(** [response.json()] *)
Definition response_json (response : Response) : M World pyval :=
  match parsed response with
  | Some v => mret v
  | None =>
      raise (Exn (if json_error_is_request_exception http
                  then RequestsJSONDecodeError else ValueError)
               "Expecting value: line 1 column 1 (char 0)")
  end.

(** The arguments [_make_request] gives to [requests.request]. *)
Definition request_kwargs (method endpoint : string)
    (params json_data : option (gmap string pyval)) : Request :=
  let url := base_url self +:+ "/" +:+ lstrip_slash endpoint in
  {| method := method;
     url := url;
     auth := Some (client_auth self);
     params := params;
     json := json_data;
     timeout := Some (client_timeout self);
     verify := verify_ssl self |}.

Definition _make_request (method endpoint : string)
    (params json_data : option (gmap string pyval)) : M World pyval :=
  try_except
    (response ← requests_request
                  (request_kwargs method endpoint params json_data);
     raise_for_status response;;
     if status_code response =? 204
     then mret (PDict {[ "success" := PBool true ]})
     else response_json response)
    is_RequestException
    (λ e, st_error ("API request failed: " +:+ exn_str e);;
          mret (PDict {[ "error" := PStr (exn_str e) ]})).

Definition get (endpoint : string) (params : option (gmap string pyval)) :=
  _make_request "GET" endpoint params None.

Definition post (endpoint : string) (json_data : option (gmap string pyval)) :=
  _make_request "POST" endpoint None json_data.

Definition put (endpoint : string) (json_data : option (gmap string pyval)) :=
  _make_request "PUT" endpoint None json_data.

Definition delete (endpoint : string) :=
  _make_request "DELETE" endpoint None None.

Definition start_analysis (min_size_mb : Q) :=
  post "analysis/start" (Some {[ "min_size_mb" := PFloat min_size_mb ]}).

Definition get_analysis_status (analysis_id : Z) :=
  get ("analysis/" +:+ pretty analysis_id +:+ "/status") None.

Definition get_latest_analysis := get "analysis/latest" None.

Definition get_recommendations (strategy : option string)
    (min_savings_pct : Q) (limit : Z) : M World pyval :=
  let params : gmap string pyval :=
    {[ "min_savings_pct" := PFloat min_savings_pct;
       "limit" := PInt limit ]} in
  let params :=
    match strategy with
    | Some s => if str_truthy s then <[ "strategy" := PStr s ]> params
                else params
    | None => params
    end in
  get "recommendations" (Some params).

Definition get_recommendation_details (recommendation_id : Z) :=
  get ("recommendations/" +:+ pretty recommendation_id) None.

Definition execute_compression (recommendation_id : Z) (dry_run : bool)
    (parallel_degree : Z) :=
  post "compression/execute"
    (Some {[ "recommendation_id" := PInt recommendation_id;
             "dry_run" := PBool dry_run;
             "parallel_degree" := PInt parallel_degree ]}).

Definition get_execution_status (execution_id : Z) :=
  get ("compression/execution/" +:+ pretty execution_id) None.

Definition get_execution_history (start_date end_date : option string)
    (limit : Z) : M World pyval :=
  let params : gmap string pyval := {[ "limit" := PInt limit ]} in
  let params :=
    match start_date with
    | Some d => if str_truthy d then <[ "start_date" := PStr d ]> params
                else params
    | None => params
    end in
  let params :=
    match end_date with
    | Some d => if str_truthy d then <[ "end_date" := PStr d ]> params
                else params
    | None => params
    end in
  get "compression/history" (Some params).

Definition get_compression_statistics := get "statistics/compression" None.

Definition get_savings_by_strategy := get "statistics/savings-by-strategy" None.

Definition get_table_statistics (owner table_name : string) :=
  get ("statistics/table/" +:+ owner +:+ "/" +:+ table_name) None.

Definition get_strategies := get "strategies" None.

Definition get_strategy_details (strategy_name : string) :=
  get ("strategies/" +:+ strategy_name) None.

Definition compare_strategies (owner table_name : string) :=
  get ("strategies/compare/" +:+ owner +:+ "/" +:+ table_name) None.

Definition health_check : M World bool :=
  try_except
    (response ← get "health" None;
     status ← py_get response "status";
     mret (py_eq_str status "healthy"))
    is_Exception
    (λ _, mret false).

Definition batch_execute (recommendation_ids : list Z) (dry_run : bool)
    (parallel_degree : Z) :=
  post "compression/batch"
    (Some {[ "recommendation_ids" := PList (PInt <$> recommendation_ids);
             "dry_run" := PBool dry_run;
             "parallel_degree" := PInt parallel_degree ]}).

(** The one operation that does not go through [_make_request]: it
    calls [requests.get] itself. *)
Definition export_recommendations_csv (strategy : option string)
    : M World string :=
  let params : gmap string pyval :=
    match strategy with
    | Some s => if str_truthy s then {[ "strategy" := PStr s ]} else ∅
    | None => ∅
    end in
  let endpoint := "export/recommendations/csv" in
  let url := base_url self +:+ "/" +:+ endpoint in
  try_except
    (response ← requests_request
                  {| method := "get";
                     url := url;
                     auth := Some (client_auth self);
                     params := Some params;
                     json := None;
                     timeout := Some (client_timeout self);
                     verify := verify_ssl self |};
     raise_for_status response;;
     mret (text response))
    is_RequestException
    (λ e, st_error ("Export failed: " +:+ exn_str e);;
          mret "").

(** The operations of the client, and the world each leaves behind. *)
Inductive ApiCall : Type :=
  | MakeRequest (method endpoint : string)
      (params json_data : option (gmap string pyval))
  | StartAnalysis (min_size_mb : Q)
  | GetAnalysisStatus (analysis_id : Z)
  | GetLatestAnalysis
  | GetRecommendations (strategy : option string) (min_savings_pct : Q)
      (limit : Z)
  | GetRecommendationDetails (recommendation_id : Z)
  | ExecuteCompression (recommendation_id : Z) (dry_run : bool)
      (parallel_degree : Z)
  | GetExecutionStatus (execution_id : Z)
  | GetExecutionHistory (start_date end_date : option string) (limit : Z)
  | GetCompressionStatistics
  | GetSavingsByStrategy
  | GetTableStatistics (owner table_name : string)
  | GetStrategies
  | GetStrategyDetails (strategy_name : string)
  | CompareStrategies (owner table_name : string)
  | HealthCheck
  | BatchExecute (recommendation_ids : list Z) (dry_run : bool)
      (parallel_degree : Z)
  | ExportRecommendationsCsv (strategy : option string).

Definition run_call (c : ApiCall) (w : World) : World :=
  match c with
  | MakeRequest m e p j => snd (_make_request m e p j w)
  | StartAnalysis q => snd (start_analysis q w)
  | GetAnalysisStatus i => snd (get_analysis_status i w)
  | GetLatestAnalysis => snd (get_latest_analysis w)
  | GetRecommendations s m l => snd (get_recommendations s m l w)
  | GetRecommendationDetails i => snd (get_recommendation_details i w)
  | ExecuteCompression i d p => snd (execute_compression i d p w)
  | GetExecutionStatus i => snd (get_execution_status i w)
  | GetExecutionHistory s e l => snd (get_execution_history s e l w)
  | GetCompressionStatistics => snd (get_compression_statistics w)
  | GetSavingsByStrategy => snd (get_savings_by_strategy w)
  | GetTableStatistics o t => snd (get_table_statistics o t w)
  | GetStrategies => snd (get_strategies w)
  | GetStrategyDetails n => snd (get_strategy_details n w)
  | CompareStrategies o t => snd (compare_strategies o t w)
  | HealthCheck => snd (health_check w)
  | BatchExecute l d p => snd (batch_execute l d p w)
  | ExportRecommendationsCsv s => snd (export_recommendations_csv s w)
  end.

Definition run_calls (cs : list ApiCall) (w : World) : World :=
  fold_left (λ (w : World) (c : ApiCall), run_call c w) cs w.

(** The request carries the configuration of the session: its
    credentials, its timeout and its TLS-verification flag. *)
Definition conforms (r : Request) : Prop :=
  auth r = Some (client_auth self)
  ∧ timeout r = Some (client_timeout self)
  ∧ verify r = verify_ssl self.

End Client.

(** A process that has sent nothing yet. *)
Definition idle : World := {| sent := []; screen := [] |}.


(** Services to run the client against.  [answering status reason body]
    answers every request with the given status and JSON body;
    [unreachable] refuses every connection. *)
Definition answering (status : Z) (status_reason : string)
    (body : option pyval) : Http := {|
  send := λ _ r, Ok {| status_code := status; reason := status_reason;
                       response_url := url r; text := "";
                       parsed := body |};
  json_error_is_request_exception := true
|}.



(** [n] slashes. *)
Fixpoint slashes (n : nat) : string :=
  match n with
  | O => ""
  | Datatypes.S n => String "/"%char (slashes n)
  end.

(** [cfg] with another [ORDS_BASE_URL]. *)
Definition with_base_url (u : string) (cfg : Config) : Config := {|
  SESSION_TIMEOUT_MINUTES := SESSION_TIMEOUT_MINUTES cfg;
  MAX_LOGIN_ATTEMPTS := MAX_LOGIN_ATTEMPTS cfg;
  DASHBOARD_PASSWORD := DASHBOARD_PASSWORD cfg;
  DB_HOST := DB_HOST cfg;
  DB_PORT := DB_PORT cfg;
  DB_SERVICE := DB_SERVICE cfg;
  DB_USER := DB_USER cfg;
  DB_PASSWORD := DB_PASSWORD cfg;
  ORDS_BASE_URL := u;
  ORDS_USERNAME := ORDS_USERNAME cfg;
  ORDS_PASSWORD := ORDS_PASSWORD cfg;
  SSL_ENABLED := SSL_ENABLED cfg;
  POOL_MIN := POOL_MIN cfg;
  POOL_MAX := POOL_MAX cfg;
  POOL_INCREMENT := POOL_INCREMENT cfg;
  API_TIMEOUT := API_TIMEOUT cfg
|}.

End Api.

(** ** [test_connection.py] *)

Module ConnectionTest.
Import Config.

(** [print(line)]: one entry for each call. *)
Definition print (line : string) : M Host unit :=
  modify (λ w, {| asked := asked w; printed := (printed w ++ [line])%list |}).

(** ["=" * 60] *)
Definition rule : string :=
  "============================================================".

(** [str(b)] for a [bool] *)
Definition bool_str (b : bool) : string :=
  if b then "True" else "False".

Section Tests.
Variable fs : FileSystem.
Variable cfg : Config.
Variable ssl : SslFiles.

Definition test_ssl_certificates : M Host bool :=
  print (String "010"%char rule);;
  print "Testing SSL Configuration";;
  print rule;;
  try_except
    (let cert_path := under_parent fs (SSL_CERT_FILE ssl) in
     let key_path := under_parent fs (SSL_KEY_FILE ssl) in
     print ("SSL Enabled: " +:+ bool_str (SSL_ENABLED cfg));;
     print ("Certificate: " +:+ cert_path);;
     print ("Private Key: " +:+ key_path);;
     print "";;
     if SSL_ENABLED cfg
     then
       cert_found ← exists_ fs cert_path;
       (if cert_found : bool
        then print "✓ SSL certificate found"
        else print "✗ SSL certificate not found");;
       key_found ← exists_ fs key_path;
       (if key_found : bool
        then print "✓ SSL private key found"
        else print "✗ SSL private key not found");;
       cert_found ← exists_ fs cert_path;
       if cert_found : bool then exists_ fs key_path else mret false
     else
       print "⚠ SSL is disabled";;
       mret true)
    is_Exception
    (λ e, print ("✗ Error: " +:+ exn_str e);;
          mret false).

End Tests.

End ConnectionTest.

(** * Properties *)

(** ** The monad *)

Section MonadFacts.
Context {W : Type}.
Implicit Types P : W → Prop.

Lemma preserves_ret {A} P (a : A) : preserves P (mret a : M W A).
Proof. intros w Hw. exact Hw. Qed.

Lemma preserves_raise {A} P (e : exn) : preserves P (raise e : M W A).
Proof. intros w Hw. exact Hw. Qed.

Lemma preserves_gets {A} P (f : W → A) : preserves P (gets f).
Proof. intros w Hw. exact Hw. Qed.

Lemma preserves_modify P (f : W → W) :
  (∀ w, P w → P (f w)) → preserves P (modify f).
Proof. intros Hf w Hw. apply Hf, Hw. Qed.

Lemma preserves_bind {A B} P (m : M W A) (f : A → M W B) :
  preserves P m → (∀ a, preserves P (f a)) → preserves P (m ≫= f).
Proof.
  intros Hm Hf w Hw. specialize (Hm w Hw).
  unfold mbind, M_bind. destruct (m w) as [[a|e] w1]; simpl in *.
  - apply Hf, Hm.
  - exact Hm.
Qed.

Lemma preserves_try_except {A} P (body : M W A) catches handler :
  preserves P body → (∀ e, preserves P (handler e)) →
  preserves P (try_except body catches handler).
Proof.
  intros Hb Hh w Hw. specialize (Hb w Hw).
  unfold try_except. destruct (body w) as [[a|e] w1]; simpl in *.
  - exact Hb.
  - destruct (catches e); [apply Hh, Hb | exact Hb].
Qed.

Lemma preserves_try_finally {A} P (body : M W A) final :
  preserves P body → preserves P final →
  preserves P (try_finally body final).
Proof.
  intros Hb Hf w Hw. specialize (Hb w Hw).
  unfold try_finally. destruct (body w) as [r w1]; simpl in *.
  specialize (Hf w1 Hb). destruct (final w1) as [[u|e] w2]; exact Hf.
Qed.

Lemma preserves_attempt {A} P (m : M W A) :
  preserves P m → preserves P (attempt m).
Proof.
  intros Hm w Hw. specialize (Hm w Hw).
  unfold attempt. destruct (m w) as [r w1]. exact Hm.
Qed.

(** How the combinators run, given how their parts run. *)

Lemma bind_Ok {A B} (m : M W A) (f : A → M W B) w a w1 :
  m w = (Ok a, w1) → (m ≫= f) w = f a w1.
Proof. intros H. unfold mbind, M_bind. rewrite H. reflexivity. Qed.

Lemma bind_Raise {A B} (m : M W A) (f : A → M W B) w e w1 :
  m w = (Raise e, w1) → (m ≫= f) w = (Raise e, w1).
Proof. intros H. unfold mbind, M_bind. rewrite H. reflexivity. Qed.

Lemma try_except_Ok {A} (body : M W A) catches handler w a w1 :
  body w = (Ok a, w1) → try_except body catches handler w = (Ok a, w1).
Proof. intros H. unfold try_except. rewrite H. reflexivity. Qed.

Lemma try_except_caught {A} (body : M W A) catches handler w e w1 :
  body w = (Raise e, w1) → catches e = true →
  try_except body catches handler w = handler e w1.
Proof. intros H Hc. unfold try_except. rewrite H, Hc. reflexivity. Qed.

Lemma try_except_uncaught {A} (body : M W A) catches handler w e w1 :
  body w = (Raise e, w1) → catches e = false →
  try_except body catches handler w = (Raise e, w1).
Proof. intros H Hc. unfold try_except. rewrite H, Hc. reflexivity. Qed.

Lemma try_finally_run {A} (body : M W A) final w r w1 w2 :
  body w = (r, w1) → final w1 = (Ok (), w2) →
  try_finally body final w = (r, w2).
Proof. intros H Hf. unfold try_finally. rewrite H, Hf. reflexivity. Qed.

Lemma attempt_run {A} (m : M W A) w r w1 :
  m w = (r, w1) → attempt m w = (Ok r, w1).
Proof. intros H. unfold attempt. rewrite H. reflexivity. Qed.

Lemma bind_Ok_inv {A B} (m : M W A) (f : A → M W B) w b w' :
  (m ≫= f) w = (Ok b, w') →
  ∃ a w1, m w = (Ok a, w1) ∧ f a w1 = (Ok b, w').
Proof.
  unfold mbind, M_bind. destruct (m w) as [[a|e] w1]; [eauto | discriminate].
Qed.

End MonadFacts.

(** Break a goal [preserves P m] down along the structure of [m];
    [known] closes the goals about the operations [m] is made of. *)
Ltac keeps_by known :=
  repeat first
    [ progress intros
    | solve [known]
    | apply preserves_bind
    | apply preserves_ret
    | apply preserves_raise
    | apply preserves_gets
    | match goal with
      | |- preserves _ (if ?b then _ else _) => destruct b
      | |- preserves _ (match ?x with _ => _ end) => destruct x
      end ].

(** ** The Session Guard *)

Section GuardFacts.
Import Config Auth.
Variable cfg : Config.
Variable clock : nat → Z.

Abbreviation MAX := (MAX_LOGIN_ATTEMPTS cfg).
Abbreviation attempts w := (login_attempts (session_state w)).

(** *** What each operation does to the session *)

Lemma logout_spec w :
  logout clock w =
    (Ok (),
     {| session_state :=
          {| authenticated := Some false;
             login_attempts := attempts w;
             last_activity := Some (clock (now_calls w));
             username := Some None |};
        now_calls := S (now_calls w);
        screen := screen w |}).
Proof. reflexivity. Qed.

Lemma login_locked password w n :
  attempts w = Some n → MAX <= n →
  login cfg clock password w =
    (Ok false,
     {| session_state := session_state w;
        now_calls := now_calls w;
        screen := screen w ++ [ErrorMaxAttemptsExceeded MAX] |}).
Proof.
  intros Hn Hle. unfold login, mbind, M_bind, gets. rewrite Hn.
  destruct (Z.geb_spec n MAX) as [_|Hlt]; [reflexivity | lia].
Qed.

Lemma login_wrong password w n :
  attempts w = Some n → n < MAX → password ≠ DASHBOARD_PASSWORD cfg →
  login cfg clock password w =
    (Ok false,
     {| session_state := set_login_attempts (n + 1) (session_state w);
        now_calls := now_calls w;
        screen := screen w ++
          [if MAX - (n + 1) >? 0
           then ErrorInvalidPassword (MAX - (n + 1))
           else ErrorMaxAttemptsReached] |}).
Proof.
  intros Hn Hlt Hne. unfold login, mbind, M_bind, gets. rewrite Hn.
  destruct (Z.geb_spec n MAX) as [Hge|_]; [lia |].
  rewrite bool_decide_eq_false_2 by exact Hne.
  destruct (MAX - (n + 1) >? 0); reflexivity.
Qed.

Lemma login_right w n :
  attempts w = Some n → n < MAX →
  login cfg clock (DASHBOARD_PASSWORD cfg) w =
    (Ok true,
     {| session_state :=
          {| authenticated := Some true;
             login_attempts := Some 0;
             last_activity := Some (clock (now_calls w));
             username := Some (Some "admin") |};
        now_calls := S (now_calls w);
        screen := screen w |}).
Proof.
  intros Hn Hlt. unfold login, mbind, M_bind, gets. rewrite Hn.
  destruct (Z.geb_spec n MAX) as [Hge|_]; [lia |].
  rewrite bool_decide_eq_true_2 by reflexivity. reflexivity.
Qed.

(** A login that succeeds was made with the configured password while
    the budget was not used up. *)
Lemma login_true_inv password w w' :
  login cfg clock password w = (Ok true, w') →
  ∃ n, attempts w = Some n ∧ n < MAX ∧ password = DASHBOARD_PASSWORD cfg.
Proof.
  unfold login, mbind, M_bind, gets.
  destruct (attempts w) as [n|] eqn:Hn; [| discriminate].
  destruct (Z.geb_spec n MAX) as [Hge|Hlt]; [discriminate |].
  destruct (bool_decide_reflect (password = DASHBOARD_PASSWORD cfg)) as [Heq|Hne].
  - intros _. exists n. auto.
  - simpl. destruct (MAX - (n + 1) >? 0); discriminate.
Qed.

(** *** The attempt budget is an invariant *)

Lemma datetime_now_keeps_budget : preserves (within_budget cfg) (datetime_now clock).
Proof. intros w Hw. exact Hw. Qed.

Lemma show_keeps_budget u : preserves (within_budget cfg) (show u).
Proof. intros w Hw. exact Hw. Qed.

Lemma update_keeps_budget f :
  (∀ s, login_attempts (f s) = login_attempts s) →
  preserves (within_budget cfg) (update f).
Proof.
  intros Hf w [n [Hn Hb]]. exists n. split; [| exact Hb].
  simpl. rewrite Hf. exact Hn.
Qed.

Lemma reset_keeps_budget :
  0 <= MAX → preserves (within_budget cfg) (update (set_login_attempts 0)).
Proof. intros Hmax w _. exists 0. split; [reflexivity | lia]. Qed.

Lemma logout_keeps_budget : preserves (within_budget cfg) (logout clock).
Proof. intros w Hw. exact Hw. Qed.

Lemma login_keeps_budget password :
  preserves (within_budget cfg) (login cfg clock password).
Proof.
  intros w [n [Hn Hb]].
  destruct (Z.lt_ge_cases n MAX) as [Hlt|Hge].
  - destruct (decide (password = DASHBOARD_PASSWORD cfg)) as [->|Hne].
    + rewrite (login_right w n Hn Hlt). exists 0. split; [reflexivity | lia].
    + rewrite (login_wrong password w n Hn Hlt Hne).
      exists (n + 1). split; [reflexivity | lia].
  - rewrite (login_locked password w n Hn Hge). exists n. auto.
Qed.

Lemma check_session_timeout_keeps_budget :
  preserves (within_budget cfg) (check_session_timeout cfg clock).
Proof.
  unfold check_session_timeout, timedelta_minutes.
  keeps_by ltac:(auto using datetime_now_keeps_budget, logout_keeps_budget).
Qed.

Lemma initialize_session_state_keeps_budget :
  0 <= MAX → preserves (within_budget cfg) (initialize_session_state clock).
Proof.
  intros Hmax. unfold initialize_session_state.
  keeps_by ltac:(auto using datetime_now_keeps_budget, reset_keeps_budget,
                   update_keeps_budget).
Qed.

Lemma show_login_page_keeps_budget input :
  preserves (within_budget cfg) (show_login_page cfg clock input).
Proof.
  unfold show_login_page, missing_attribute.
  keeps_by ltac:(auto using show_keeps_budget, login_keeps_budget).
Qed.

Lemma require_authentication_keeps_budget input :
  0 <= MAX →
  preserves (within_budget cfg) (require_authentication cfg clock input).
Proof.
  intros Hmax. unfold require_authentication, is_authenticated, update_activity.
  keeps_by ltac:(auto using show_keeps_budget, show_login_page_keeps_budget,
                   check_session_timeout_keeps_budget,
                   initialize_session_state_keeps_budget,
                   datetime_now_keeps_budget, update_keeps_budget).
Qed.

Lemma run_op_keeps_budget op w :
  0 <= MAX → within_budget cfg w → within_budget cfg (run_op cfg clock op w).
Proof.
  intros Hmax Hw. destruct op; simpl.
  - apply login_keeps_budget, Hw.
  - apply logout_keeps_budget, Hw.
  - apply check_session_timeout_keeps_budget, Hw.
  - apply require_authentication_keeps_budget; assumption.
Qed.

Lemma run_ops_keeps_budget ops w :
  0 <= MAX → within_budget cfg w → within_budget cfg (run_ops cfg clock ops w).
Proof.
  intros Hmax. revert w. induction ops as [|op ops IH]; intros w Hw.
  - exact Hw.
  - simpl. apply IH, run_op_keeps_budget; assumption.
Qed.

Lemma initial_world_within_budget :
  0 <= MAX → within_budget cfg (initial_world clock).
Proof. intros Hmax. exists 0. split; [reflexivity | lia]. Qed.

(** *** Rejection and lock-out *)

(** C4. A login with a password other than the configured one, made
    while the failed-attempt counter [n] is below the maximum, is
    rejected and leaves the counter at exactly [n + 1]; nothing else in
    the session changes.  Once the counter has reached the maximum, a
    login is rejected at once, whatever the password: the session is
    left as it was, the counter included, and the outcome is the same
    for every password, the configured one too. *)
Theorem login_rejects_wrong_password_then_locks_out password w n :
  attempts w = Some n →
  (n < MAX → password ≠ DASHBOARD_PASSWORD cfg →
   login cfg clock password w =
     (Ok false,
      {| session_state := set_login_attempts (n + 1) (session_state w);
         now_calls := now_calls w;
         screen := screen w ++
           [if MAX - (n + 1) >? 0
            then ErrorInvalidPassword (MAX - (n + 1))
            else ErrorMaxAttemptsReached] |}))
  ∧ (MAX <= n →
     login cfg clock password w =
       (Ok false,
        {| session_state := session_state w;
           now_calls := now_calls w;
           screen := screen w ++ [ErrorMaxAttemptsExceeded MAX] |})
     ∧ ∀ other, login cfg clock other w = login cfg clock password w).
Proof.
  intros Hn. split.
  - intros Hlt Hne. exact (login_wrong password w n Hn Hlt Hne).
  - intros Hge. split.
    + exact (login_locked password w n Hn Hge).
    + intros other.
      rewrite (login_locked other w n Hn Hge).
      rewrite (login_locked password w n Hn Hge). reflexivity.
Qed.

(** *** The counter never exceeds the maximum *)

(** C5. With a maximum that is not negative, after every sequence of
    guard operations run from a freshly initialized session the
    failed-attempt counter lies between 0 and the maximum; and in the
    session so reached, a login with the configured password made while
    the counter is below the maximum succeeds, sets [authenticated] and
    puts the counter back to 0. *)
Theorem failed_attempts_bounded_and_reset_on_success ops :
  0 <= MAX →
  let w := run_ops cfg clock ops (initial_world clock) in
  within_budget cfg w
  ∧ ∀ n, attempts w = Some n → n < MAX →
      ∃ w', login cfg clock (DASHBOARD_PASSWORD cfg) w = (Ok true, w')
            ∧ authenticated (session_state w') = Some true
            ∧ attempts w' = Some 0.
Proof.
  intros Hmax w. split.
  - apply run_ops_keeps_budget, initial_world_within_budget; assumption.
  - intros n Hn Hlt. eexists. split; [exact (login_right w n Hn Hlt) |].
    split; reflexivity.
Qed.

(** *** The idle timeout *)

Lemma check_session_timeout_spec w :
  check_session_timeout cfg clock w =
    match last_activity (session_state w) with
    | Some last =>
        if timedelta_in_range (SESSION_TIMEOUT_MINUTES cfg)
        then if clock (now_calls w) - last >? timeout_window cfg
             then (Ok true, snd (logout clock (snd (datetime_now clock w))))
             else (Ok false, snd (datetime_now clock w))
        else (Raise (timedelta_overflow (SESSION_TIMEOUT_MINUTES cfg)), w)
    | None => (Ok false, w)
    end.
Proof.
  unfold check_session_timeout, timedelta_minutes, timeout_window, mbind,
    M_bind, gets.
  destruct (last_activity (session_state w)) as [last|]; [| reflexivity].
  destruct (timedelta_in_range (SESSION_TIMEOUT_MINUTES cfg)); [| reflexivity].
  simpl. destruct (clock (now_calls w) - last >? _); reflexivity.
Qed.

Lemma check_session_timeout_true_iff w :
  window_in_range cfg →
  fst (check_session_timeout cfg clock w) = Ok true ↔
  ∃ last, last_activity (session_state w) = Some last
          ∧ clock (now_calls w) - last > timeout_window cfg.
Proof.
  intros Hrange. rewrite check_session_timeout_spec, Hrange.
  destruct (last_activity (session_state w)) as [last|].
  - destruct (Z.gtb_spec (clock (now_calls w) - last) (timeout_window cfg))
      as [Hgt|Hle]; simpl.
    + split; [intros _; exists last; split; [reflexivity | lia] | reflexivity].
    + split; [discriminate |]. intros [t [[= <-] Ht]]. lia.
  - simpl. split; [discriminate |]. intros [t [[=] _]].
Qed.

Lemma check_session_timeout_false_iff w t :
  window_in_range cfg →
  last_activity (session_state w) = Some t →
  fst (check_session_timeout cfg clock w) = Ok false
  ↔ clock (now_calls w) - t <= timeout_window cfg.
Proof.
  intros Hrange Ht. rewrite check_session_timeout_spec, Ht, Hrange.
  destruct (Z.gtb_spec (clock (now_calls w) - t) (timeout_window cfg));
    simpl; split; first [discriminate | reflexivity | lia].
Qed.

Lemma login_stamps password w w' :
  login cfg clock password w = (Ok true, w') → freshly_stamped clock w'.
Proof.
  intros Hlogin.
  destruct (login_true_inv password w w' Hlogin) as (n & Hn & Hlt & ->).
  rewrite (login_right w n Hn Hlt) in Hlogin.
  injection Hlogin as <-. split; simpl; [lia | reflexivity].
Qed.

Lemma require_authentication_stamps input w w' :
  require_authentication cfg clock input w = (Ok (), w') →
  freshly_stamped clock w'.
Proof.
  unfold require_authentication. intros H.
  apply bind_Ok_inv in H as (_ & w1 & _ & H).
  apply bind_Ok_inv in H as (timed_out & w2 & _ & H).
  apply bind_Ok_inv in H as (_ & w3 & _ & H).
  apply bind_Ok_inv in H as (ok & w4 & _ & H).
  destruct (negb ok).
  - apply bind_Ok_inv in H as (_ & w5 & _ & H). discriminate.
  - injection H as <-. split; simpl; [lia | reflexivity].
Qed.

(** C8, as the code has it.  When [timedelta] can hold the configured
    number of minutes, [check_session_timeout] returns, and it returns
    true exactly when [last_activity] is set and the time elapsed since
    then, at the reading of the clock it makes, exceeds the idle-timeout
    window; when it returns true, the session is the one [logout]
    leaves.  After a login that succeeded, and after a
    [require_authentication] that let the page through, [last_activity]
    holds the reading of the clock made in that call, and a
    [check_session_timeout] made then returns false exactly when its own
    reading lies within the window of that one: so it does when no time
    has passed and the window is not negative.  When [timedelta] cannot
    hold the configured number of minutes, [check_session_timeout]
    raises [OverflowError] whenever [last_activity] is set, without
    reading the clock and without touching the session. *)
Theorem check_timeout_true_iff_idle_beyond_window :
  (window_in_range cfg →
   (∀ w,
      (fst (check_session_timeout cfg clock w) = Ok true
       ∨ fst (check_session_timeout cfg clock w) = Ok false)
      ∧ (fst (check_session_timeout cfg clock w) = Ok true ↔
         ∃ last, last_activity (session_state w) = Some last
                 ∧ clock (now_calls w) - last > timeout_window cfg)
      ∧ (fst (check_session_timeout cfg clock w) = Ok true →
         snd (check_session_timeout cfg clock w)
           = snd (logout clock (snd (datetime_now clock w)))
         ∧ authenticated
             (session_state (snd (check_session_timeout cfg clock w)))
           = Some false))
   ∧ (∀ w w',
        (∃ password, login cfg clock password w = (Ok true, w'))
        ∨ (∃ input, require_authentication cfg clock input w = (Ok (), w')) →
        freshly_stamped clock w'
        ∧ (fst (check_session_timeout cfg clock w') = Ok false
           ↔ clock (now_calls w') - clock (Nat.pred (now_calls w'))
               <= timeout_window cfg)
        ∧ (0 <= SESSION_TIMEOUT_MINUTES cfg →
           clock (now_calls w') = clock (Nat.pred (now_calls w')) →
           fst (check_session_timeout cfg clock w') = Ok false)))
  ∧ (¬ window_in_range cfg →
     ∀ w, last_activity (session_state w) ≠ None →
       check_session_timeout cfg clock w
         = (Raise (timedelta_overflow (SESSION_TIMEOUT_MINUTES cfg)), w)
       ∧ exn_class (timedelta_overflow (SESSION_TIMEOUT_MINUTES cfg))
         = OverflowError).
Proof.
  split.
  - intros Hrange. split.
    + intros w. split; [| split].
      * rewrite check_session_timeout_spec, Hrange.
        destruct (last_activity (session_state w)) as [last|]; [| auto].
        destruct (_ >? _); auto.
      * apply check_session_timeout_true_iff, Hrange.
      * rewrite check_session_timeout_spec, Hrange.
        destruct (last_activity (session_state w)) as [last|];
          [| discriminate].
        destruct (_ >? _); [| discriminate]. intros _. split; reflexivity.
    + intros w w' Hfrom.
      assert (freshly_stamped clock w') as Hfresh.
      { destruct Hfrom as [[password H]|[input H]].
        - exact (login_stamps password w w' H).
        - exact (require_authentication_stamps input w w' H). }
      split; [exact Hfresh |]. destruct Hfresh as [_ Hlast].
      split; [exact (check_session_timeout_false_iff w' _ Hrange Hlast) |].
      intros Hmin Hsame.
      apply (check_session_timeout_false_iff w' _ Hrange Hlast).
      unfold timeout_window. lia.
  - intros Hrange w Hlast.
    rewrite check_session_timeout_spec.
    destruct (last_activity (session_state w)) as [last|]; [| contradiction].
    unfold window_in_range in Hrange.
    destruct (timedelta_in_range (SESSION_TIMEOUT_MINUTES cfg));
      [contradiction | split; reflexivity].
Qed.

End GuardFacts.

(** *** The guard at work

    A session under the default configuration, with a clock that moves
    one second on at every reading. *)

Lemma login_rejects_wrong_password_then_locks_out_witness :
  let clock := λ n : nat, Z.of_nat n * 1000000 in
  let w := Auth.initial_world clock in
  let locked := Auth.run_ops Config.defaults clock
                  [Auth.Login "a"; Auth.Login "b"; Auth.Login "c"] w in
  Auth.login_attempts
    (Auth.session_state (snd (Auth.login Config.defaults clock "guess" w)))
    = Some 1
  ∧ fst (Auth.login Config.defaults clock "guess" w) = Ok false
  ∧ Auth.login Config.defaults clock "admin123" locked
    = Auth.login Config.defaults clock "guess" locked.
Proof.
  intros clock w locked.
  destruct (login_rejects_wrong_password_then_locks_out
              Config.defaults clock "guess" w 0 eq_refl) as [Hwrong _].
  destruct (login_rejects_wrong_password_then_locks_out
              Config.defaults clock "guess" locked 3 eq_refl) as [_ Hlocked].
  rewrite Hwrong by (simpl; first [lia | discriminate]).
  split; [reflexivity |]. split; [reflexivity |].
  apply Hlocked. simpl. lia.
Defined.

Lemma failed_attempts_bounded_and_reset_on_success_witness :
  let clock := λ n : nat, Z.of_nat n * 1000000 in
  let w := Auth.run_ops Config.defaults clock
             [Auth.Login "a"; Auth.Login "b"; Auth.Logout; Auth.CheckTimeout]
             (Auth.initial_world clock) in
  Auth.within_budget Config.defaults w
  ∧ ∃ w', Auth.login Config.defaults clock "admin123" w = (Ok true, w')
          ∧ Auth.authenticated (Auth.session_state w') = Some true
          ∧ Auth.login_attempts (Auth.session_state w') = Some 0.
Proof.
  intros clock w.
  assert (0 <= Config.MAX_LOGIN_ATTEMPTS Config.defaults) as Hmax
    by (simpl; lia).
  destruct (failed_attempts_bounded_and_reset_on_success
              Config.defaults clock
              [Auth.Login "a"; Auth.Login "b"; Auth.Logout; Auth.CheckTimeout]
              Hmax) as [Hbound Hreset].
  split; [exact Hbound |].
  apply (Hreset 2); [reflexivity | simpl; lia].
Defined.

Lemma check_timeout_true_iff_idle_beyond_window_witness :
  let clock := λ n : nat, Z.of_nat n * 1000000 in
  let w := snd (Auth.login Config.defaults clock "admin123"
                  (Auth.initial_world clock)) in
  let beyond := Config.with_session_timeout 1440000000000 Config.defaults in
  Auth.window_in_range Config.defaults
  ∧ fst (Auth.check_session_timeout Config.defaults clock w) = Ok false
  ∧ ¬ Auth.window_in_range beyond
  ∧ Auth.check_session_timeout beyond clock w
    = (Raise (Auth.timedelta_overflow 1440000000000), w).
Proof.
  intros clock w beyond.
  assert (Auth.window_in_range Config.defaults) as Hrange by reflexivity.
  assert (¬ Auth.window_in_range beyond) as Hbeyond by discriminate.
  split; [exact Hrange |]. split; [| split; [exact Hbeyond |]].
  - destruct (check_timeout_true_iff_idle_beyond_window Config.defaults clock)
      as [Hin _].
    destruct (Hin Hrange) as [_ Hafter].
    destruct (Hafter (Auth.initial_world clock) w) as (_ & Hfalse & _).
    + left. exists "admin123". reflexivity.
    + apply Hfalse. vm_compute. discriminate.
  - destruct (check_timeout_true_iff_idle_beyond_window beyond clock)
      as [_ Hout].
    destruct (Hout Hbeyond w) as [Hraise _]; [discriminate | exact Hraise].
Defined.

(** C8 as the specification has it fails on its second half and on its
    first.  With a window of zero minutes and a clock that moves on by
    a microsecond at each reading, and with a negative window even on a
    clock that stands still, the check made right after a login that
    succeeded returns true.  With a number of minutes that [timedelta]
    cannot hold, the check returns neither true nor false: it raises
    [OverflowError]. *)
Lemma check_right_after_login_times_out_or_overflows :
  let ticking := λ n : nat, Z.of_nat n in
  let frozen := λ _ : nat, 0 in
  let at_once := Config.with_session_timeout 0 Config.defaults in
  let negative := Config.with_session_timeout (-1) Config.defaults in
  let beyond := Config.with_session_timeout 1440000000000 Config.defaults in
  (∃ w, Auth.login at_once ticking "admin123" (Auth.initial_world ticking)
          = (Ok true, w)
        ∧ fst (Auth.check_session_timeout at_once ticking w) = Ok true)
  ∧ (∃ w, Auth.login negative frozen "admin123" (Auth.initial_world frozen)
            = (Ok true, w)
          ∧ fst (Auth.check_session_timeout negative frozen w) = Ok true)
  ∧ (∃ w e, Auth.login beyond ticking "admin123" (Auth.initial_world ticking)
              = (Ok true, w)
            ∧ fst (Auth.check_session_timeout beyond ticking w) = Raise e
            ∧ exn_class e = OverflowError).
Proof.
  intros ticking frozen at_once negative beyond.
  split; [| split].
  - eexists. split; reflexivity.
  - eexists. split; reflexivity.
  - eexists. eexists. split; [reflexivity |]. split; reflexivity.
Qed.

(** ** The Database Gateway *)

#[local] Open Scope list_scope.

Section GatewayFacts.
Import Config Db.
Context {S : Type}.
Variable cfg : Config.
Variable drv : Driver S.
Implicit Types w : World S.

(** *** Code that leaves the pool alone *)

Lemma call_untouched {A} (f : S → Result A * S) : pool_untouched (call f).
Proof.
  intros p evs w Hw. unfold call. destruct (f (driver_state w)). exact Hw.
Qed.

Lemma st_error_untouched msg : pool_untouched (st_error (S:=S) msg).
Proof. intros p evs w Hw. exact Hw. Qed.

Lemma connection_error_untouched {A} e :
  pool_untouched (connection_error (S:=S) (A:=A) e).
Proof.
  intros p evs. unfold connection_error.
  keeps_by ltac:(apply st_error_untouched).
Qed.

Ltac untouched :=
  intros ? ?;
  keeps_by ltac:(first [ apply call_untouched
                       | apply st_error_untouched
                       | apply connection_error_untouched ]).

Lemma execute_untouched cursor statement params :
  pool_untouched (execute drv cursor statement params).
Proof. unfold execute. untouched. Qed.

(** *** The pool calls of [get_connection] *)

Lemma ensure_pool_spec w :
  ensure_pool cfg drv w =
    match _pool w with
    | Some _ => (Ok (), w)
    | None =>
        match create_pool drv (pool_args cfg) (driver_state w) with
        | (Ok q, s) => (Ok (), with_new_pool q s w)
        | (Raise e, s) =>
            (Raise e,
             {| _pool := None; driver_state := s; calls := calls w;
                screen :=
                  if is_oracledb_Error e
                  then screen w ++
                         ["Failed to create connection pool: " +:+ exn_str e]
                  else screen w |})
        end
    end.
Proof.
  unfold ensure_pool, initialize_pool, mbind, M_bind, gets, try_except, call.
  destruct (_pool w) as [p|] eqn:Hp; [reflexivity |]. rewrite Hp.
  destruct (create_pool drv (pool_args cfg) (driver_state w)) as [[q|e] s].
  - reflexivity.
  - simpl. destruct (is_oracledb_Error e); simpl; unfold raise;
      rewrite ?Hp; reflexivity.
Qed.

Lemma acquire_spec w p :
  _pool w = Some p →
  acquire drv w =
    match pool_acquire drv p (driver_state w) with
    | (Ok c, s) =>
        (Ok c, {| _pool := Some p; driver_state := s;
                  calls := calls w ++ [Acquired p c]; screen := screen w |})
    | (Raise e, s) =>
        (Raise e, {| _pool := Some p; driver_state := s;
                     calls := calls w; screen := screen w |})
    end.
Proof.
  intros Hp. unfold acquire, mbind, M_bind, gets. rewrite Hp.
  unfold mbind, M_bind, call.
  destruct (pool_acquire drv p (driver_state w)) as [[c|e] s];
    simpl; rewrite Hp; reflexivity.
Qed.

Lemma release_spec w p c :
  _pool w = Some p →
  release drv c w =
    (fst (pool_release drv p c (driver_state w)),
     {| _pool := Some p;
        driver_state := snd (pool_release drv p c (driver_state w));
        calls := calls w ++ [Released p c]; screen := screen w |}).
Proof.
  intros Hp. unfold release, mbind, M_bind, gets. rewrite Hp.
  unfold record, modify, call. simpl.
  destruct (pool_release drv p c (driver_state w)) as [[[]|e] s];
    simpl; rewrite Hp; reflexivity.
Qed.

(** With a pool in place, the [try] statement either acquires nothing,
    or acquires one connection and releases it. *)
Lemma connection_scope_calls {A} (body : Conn → M (World S) A) w p :
  _pool w = Some p →
  (∀ c, pool_untouched (body c)) →
  _pool (snd (connection_scope drv body w)) = Some p
  ∧ (calls (snd (connection_scope drv body w)) = calls w
     ∨ ∃ c, calls (snd (connection_scope drv body w))
              = calls w ++ [Acquired p c; Released p c]).
Proof.
  intros Hp Hbody.
  unfold connection_scope, mbind, M_bind, attempt.
  rewrite (acquire_spec w p Hp).
  destruct (pool_acquire drv p (driver_state w)) as [[c|e] s1].
  - set (w1 := {| _pool := Some p; driver_state := s1;
                  calls := calls w ++ [Acquired p c]; screen := screen w |}).
    assert (preserves (λ w', _pool w' = _pool w1 ∧ calls w' = calls w1)
              (try_except (body c) is_oracledb_Error connection_error))
      as Hkeeps.
    { apply preserves_try_except; [apply Hbody |].
      intros e. apply connection_error_untouched. }
    specialize (Hkeeps w1 (conj eq_refl eq_refl)).
    unfold try_finally.
    destruct (try_except (body c) is_oracledb_Error connection_error w1)
      as [r w2].
    simpl in Hkeeps. destruct Hkeeps as [Hpool Hcalls].
    rewrite (release_spec w2 p c Hpool).
    destruct (pool_release drv p c (driver_state w2)) as [[[]|e2] s2]; simpl;
      (split; [reflexivity |]);
      right; exists c; rewrite Hcalls; unfold w1; simpl;
      rewrite <- app_assoc; reflexivity.
  - unfold try_except, raise.
    destruct (is_oracledb_Error e); simpl; auto.
Qed.








(** *** Release on every exit *)


Lemma perform_world op w :
  snd (perform cfg drv op w) =
    match op with
    | ExecuteQuery query params => snd (execute_query cfg drv query params w)
    | ExecuteDml statement params commit =>
        snd (execute_dml cfg drv statement params commit w)
    | ExecuteProcedure name params =>
        snd (execute_procedure cfg drv name params w)
    | TestConnection => snd (test_connection cfg drv w)
    end.
Proof.
  destruct op; unfold perform, mbind, M_bind;
    match goal with |- context [match ?m w with _ => _ end] =>
      destruct (m w) as [[?|?] ?] end; reflexivity.
Qed.


(** *** A failing statement *)

Lemma acquire_Ok_pool w c w1 :
  acquire drv w = (Ok c, w1) → ∃ p, _pool w = Some p ∧ _pool w1 = Some p.
Proof.
  intros H. destruct (_pool w) as [p|] eqn:Hp.
  - exists p. split; [reflexivity |].
    rewrite (acquire_spec w p Hp) in H.
    destruct (pool_acquire drv p (driver_state w)) as [[c'|e] s];
      [| discriminate].
    injection H as _ <-. reflexivity.
  - unfold acquire, mbind, M_bind, gets in H. rewrite Hp in H. discriminate.
Qed.

Lemma untouched_pool {A} (m : M (World S) A) w r w1 :
  pool_untouched m → m w = (r, w1) → _pool w1 = _pool w.
Proof.
  intros Hm Hrun.
  pose proof (Hm (_pool w) (calls w) w (conj eq_refl eq_refl)) as [Hp _].
  rewrite Hrun in Hp. exact Hp.
Qed.

(** The connection is held, the cursor opens, and the statement fails:
    [get_connection] reports the failure if it is an [oracledb.Error],
    calls [release], and ends on the failure of the statement, or on
    that of the release when the release fails too. *)
Lemma get_connection_failing_statement {A}
    (rest : Conn → Cursor → M (World S) A)
    statement params w w0 w1 w2 w3 c cur e :
  ensure_pool cfg drv w = (Ok (), w0) →
  acquire drv w0 = (Ok c, w1) →
  call (conn_cursor drv c) w1 = (Ok cur, w2) →
  execute drv cur statement params w2 = (Raise e, w3) →
  ∃ w4,
    get_connection cfg drv
      (λ conn, cursor ← call (conn_cursor drv conn);
               execute drv cursor statement params;;
               rest conn cursor) w
    = (match fst (release drv c w3) with
       | Ok _ => Raise e
       | Raise e' => Raise e'
       end, w4).
Proof.
  intros Hpool Hacquire Hcursor Hexecute.
  destruct (acquire_Ok_pool w0 c w1 Hacquire) as (p & _ & Hp1).
  assert (_pool w3 = Some p) as Hp3.
  { rewrite (untouched_pool _ w2 _ w3 (execute_untouched _ _ _) Hexecute).
    rewrite (untouched_pool _ w1 _ w2 (call_untouched _) Hcursor).
    exact Hp1. }
  unfold get_connection.
  rewrite (bind_Ok _ _ _ _ _ Hpool).
  unfold connection_scope.
  rewrite (bind_Ok _ _ _ _ _ (attempt_run _ _ _ _ Hacquire)).
  unfold try_finally, try_except.
  rewrite (bind_Ok _ _ _ _ _ Hcursor), (bind_Raise _ _ _ _ _ Hexecute).
  rewrite (release_spec w3 p c Hp3).
  destruct (is_oracledb_Error e).
  - unfold connection_error, st_error, modify, raise, mbind, M_bind.
    cbv beta iota. erewrite release_spec by exact Hp3. simpl.
    destruct (pool_release drv p c (driver_state w3)) as [[[]|e'] s]; simpl;
      eexists; reflexivity.
  - cbv beta iota. rewrite (release_spec w3 p c Hp3). simpl.
    destruct (pool_release drv p c (driver_state w3)) as [[[]|e'] s]; simpl;
      eexists; reflexivity.
Qed.

(** C6, as the code has it.  The pool is there or can be created, a
    connection is acquired, the cursor opens, and the execution of the
    statement then fails.  When it fails with an [oracledb.Error], and
    handing the connection back returns or fails with an
    [oracledb.Error] too, [execute_query] returns the empty frame, which
    has no rows, and [execute_dml] returns 0; neither raises.  When it
    fails with an exception of another class, and handing the
    connection back returns, both raise that exception.  And when
    handing the connection back fails with an exception that is no
    [oracledb.Error], both raise that one, whatever the statement failed
    with. *)
Theorem failing_statement_gives_empty_frame_and_zero
    statement params commit w w0 w1 w2 w3 c cur e :
  ensure_pool cfg drv w = (Ok (), w0) →
  acquire drv w0 = (Ok c, w1) →
  call (conn_cursor drv c) w1 = (Ok cur, w2) →
  execute drv cur statement params w2 = (Raise e, w3) →
  (is_oracledb_Error e = true →
   (∀ e', fst (release drv c w3) = Raise e' → is_oracledb_Error e' = true) →
   fst (execute_query cfg drv statement params w) = Ok empty_DataFrame
   ∧ rows empty_DataFrame = []
   ∧ fst (execute_dml cfg drv statement params commit w) = Ok 0)
  ∧ (is_oracledb_Error e = false →
     fst (release drv c w3) = Ok () →
     fst (execute_query cfg drv statement params w) = Raise e
     ∧ fst (execute_dml cfg drv statement params commit w) = Raise e)
  ∧ (∀ e', fst (release drv c w3) = Raise e' →
           is_oracledb_Error e' = false →
           fst (execute_query cfg drv statement params w) = Raise e'
           ∧ fst (execute_dml cfg drv statement params commit w) = Raise e').
Proof.
  intros Hpool Hacquire Hcursor Hexecute.
  destruct (get_connection_failing_statement
              (λ conn cursor,
                 fetched ← call (cursor_fetchall drv cursor);
                 description ← gets (λ w, cursor_description drv cursor
                                            (driver_state w));
                 names ← match description with
                         | Some names => mret names
                         | None => raise (Exn TypeError
                                       "'NoneType' object is not iterable")
                         end;
                 call (cursor_close drv cursor);;
                 mret {| columns := names; rows := fetched |})
              statement params w w0 w1 w2 w3 c cur e
              Hpool Hacquire Hcursor Hexecute) as [w4 Hquery].
  destruct (get_connection_failing_statement
              (λ conn cursor,
                 rows_affected ← gets (λ w, cursor_rowcount drv cursor
                                              (driver_state w));
                 (if commit then call (conn_commit drv conn) else mret ());;
                 call (cursor_close drv cursor);;
                 mret rows_affected)
              statement params w w0 w1 w2 w3 c cur e
              Hpool Hacquire Hcursor Hexecute) as [w5 Hdml].
  unfold execute_query, execute_dml, try_except. rewrite Hquery, Hdml.
  destruct (fst (release drv c w3)) as [[]|e'] eqn:Hrelease.
  - split; [| split].
    + intros Horacle _. rewrite Horacle. auto.
    + intros Hother _. rewrite Hother. auto.
    + intros e'' [=].
  - split; [| split].
    + intros _ Hbenign. rewrite (Hbenign e' eq_refl). auto.
    + intros _ [=].
    + intros e'' [= <-] Hother. rewrite Hother. auto.
Qed.

(** *** Use after close *)

Lemma close_pool_spec w p :
  _pool w = Some p →
  close_pool drv w =
    match pool_close drv p (driver_state w) with
    | (Ok _, s) =>
        (Ok (), {| _pool := None; driver_state := s;
                   calls := calls w ++ [PoolClosed p]; screen := screen w |})
    | (Raise e, s) =>
        (Raise e, {| _pool := Some p; driver_state := s;
                     calls := calls w; screen := screen w |})
    end.
Proof.
  intros Hp. unfold close_pool, mbind, M_bind, gets. rewrite Hp.
  unfold mbind, M_bind, call.
  destruct (pool_close drv p (driver_state w)) as [[[]|e] s];
    simpl; rewrite ?Hp; reflexivity.
Qed.

Lemma get_connection_lazy {A} (body : Conn → M (World S) A) w q s :
  _pool w = None →
  create_pool drv (pool_args cfg) (driver_state w) = (Ok q, s) →
  get_connection cfg drv body w
    = get_connection cfg drv body (with_new_pool q s w).
Proof.
  intros Hnone Hcreate. unfold get_connection, mbind, M_bind.
  rewrite !ensure_pool_spec, Hnone, Hcreate. reflexivity.
Qed.

Lemma get_connection_pool_refused {A} (body : Conn → M (World S) A) w e s :
  _pool w = None →
  create_pool drv (pool_args cfg) (driver_state w) = (Raise e, s) →
  fst (get_connection cfg drv body w) = Raise e.
Proof.
  intros Hnone Hcreate. unfold get_connection, mbind, M_bind.
  rewrite ensure_pool_spec, Hnone, Hcreate. reflexivity.
Qed.

Lemma guarded_pool {A} (body : Conn → M (World S) A) handler w p :
  _pool w = Some p →
  (∀ c, pool_untouched (body c)) →
  (∀ e, pool_untouched (handler e)) →
  _pool (snd (try_except (get_connection cfg drv body)
                is_oracledb_Error handler w)) = Some p.
Proof.
  intros Hp Hbody Hhandler.
  assert (_pool (snd (get_connection cfg drv body w)) = Some p) as Hget.
  { unfold get_connection, mbind, M_bind. rewrite ensure_pool_spec, Hp.
    apply (connection_scope_calls body w p Hp Hbody). }
  unfold try_except.
  destruct (get_connection cfg drv body w) as [[a|e] w1]; simpl in *;
    [exact Hget |].
  destruct (is_oracledb_Error e); [| exact Hget].
  exact (proj1 (Hhandler e (Some p) (calls w1) w1 (conj Hget eq_refl))).
Qed.

Lemma perform_keeps_pool op w p :
  _pool w = Some p → _pool (snd (perform cfg drv op w)) = Some p.
Proof.
  intros Hp. rewrite perform_world.
  destruct op; apply guarded_pool; try exact Hp; intros ?;
    unfold execute; untouched.
Qed.

Lemma perform_lazy op w q s :
  _pool w = None →
  create_pool drv (pool_args cfg) (driver_state w) = (Ok q, s) →
  perform cfg drv op w = perform cfg drv op (with_new_pool q s w).
Proof.
  intros Hnone Hcreate.
  destruct op;
    unfold perform, mbind, M_bind, execute_query, execute_dml,
      execute_procedure, test_connection, try_except;
    rewrite (get_connection_lazy _ w q s Hnone Hcreate); reflexivity.
Qed.

Lemma perform_pool_refused op w e s :
  _pool w = None →
  create_pool drv (pool_args cfg) (driver_state w) = (Raise e, s) →
  fst (perform cfg drv op w)
    = if is_oracledb_Error e then Ok (on_error op) else Raise e.
Proof.
  intros Hnone Hcreate.
  destruct op;
    unfold perform, mbind, M_bind, execute_query, execute_dml,
      execute_procedure, test_connection, try_except;
    match goal with
    | |- context [get_connection cfg drv ?body w] =>
        pose proof (get_connection_pool_refused body w e s Hnone Hcreate)
          as Hget;
        destruct (get_connection cfg drv body w) as [r w1]
    end;
    simpl in Hget; subst r; destruct (is_oracledb_Error e); reflexivity.
Qed.

(** C9. Once [close_pool] has closed the pool, [_pool] holds nothing.
    An operation run then starts by creating a pool.  When the driver
    creates one, the operation runs exactly as it would with that pool
    already in place, and leaves it in [_pool].  When the driver refuses
    to, the operation ends on the driver's own error: caught and turned
    into the operation's fallback value if it is an [oracledb.Error],
    let through otherwise.  In no case does it fail for want of a
    pool. *)
Theorem use_after_close_recreates_pool op w p w1 :
  _pool w = Some p →
  close_pool drv w = (Ok (), w1) →
  _pool w1 = None
  ∧ (∀ q s,
       create_pool drv (pool_args cfg) (driver_state w1) = (Ok q, s) →
       perform cfg drv op w1 = perform cfg drv op (with_new_pool q s w1)
       ∧ _pool (run_op cfg drv op w1) = Some q)
  ∧ (∀ e s,
       create_pool drv (pool_args cfg) (driver_state w1) = (Raise e, s) →
       fst (perform cfg drv op w1)
         = if is_oracledb_Error e then Ok (on_error op) else Raise e).
Proof.
  intros Hp Hclose.
  assert (_pool w1 = None) as Hnone.
  { rewrite (close_pool_spec w p Hp) in Hclose.
    destruct (pool_close drv p (driver_state w)) as [[[]|e] s];
      [| discriminate].
    injection Hclose as <-. reflexivity. }
  split; [exact Hnone |]. split.
  - intros q s Hcreate. split.
    + exact (perform_lazy op w1 q s Hnone Hcreate).
    + unfold run_op. rewrite (perform_lazy op w1 q s Hnone Hcreate).
      apply perform_keeps_pool. reflexivity.
  - intros e s Hcreate. exact (perform_pool_refused op w1 e s Hnone Hcreate).
Qed.

End GatewayFacts.

(** *** The gateway at work

    The gateway on [Db.counting_driver], under the default
    configuration, from a process that has no pool yet. *)


Lemma failing_statement_gives_empty_frame_and_zero_witness :
  fst (Db.execute_query Config.defaults Db.counting_driver
         Db.rejected_statement None Db.no_pool_yet)
    = Ok Db.empty_DataFrame
  ∧ Db.rows Db.empty_DataFrame = []
  ∧ fst (Db.execute_dml Config.defaults Db.counting_driver
           Db.rejected_statement None true Db.no_pool_yet)
    = Ok 0.
Proof.
  edestruct (failing_statement_gives_empty_frame_and_zero
               Config.defaults Db.counting_driver
               Db.rejected_statement None true Db.no_pool_yet)
    as (Hcaught & _).
  - reflexivity.
  - reflexivity.
  - reflexivity.
  - reflexivity.
  - apply Hcaught; [reflexivity |]. intros e' Hrelease. discriminate Hrelease.
Defined.

(** C6 as the specification has it fails for a statement whose
    execution fails with an exception that is no [oracledb.Error], a
    [TypeError] here: [execute_query] and [execute_dml] raise it past
    the gateway.  It fails as well when the statement is refused with an
    [oracledb.Error] and the release of the connection then fails with
    an exception of another class: that one is raised. *)
Lemma failing_statement_of_another_class_is_raised :
  let refused := Exn TypeError "expecting string or bytes object" in
  let broken := Exn ValueError "connection cannot be released" in
  let picky :=
    Db.with_cursor_execute
      (λ _ _ _ n, (Raise refused, Datatypes.S n)) Db.counting_driver in
  let sticky :=
    Db.with_pool_release
      (λ _ _ n, (Raise broken, Datatypes.S n)) Db.counting_driver in
  fst (Db.execute_query Config.defaults picky "SELECT 1 FROM DUAL" None
         Db.no_pool_yet) = Raise refused
  ∧ fst (Db.execute_dml Config.defaults picky "DELETE FROM t" None true
           Db.no_pool_yet) = Raise refused
  ∧ fst (Db.execute_query Config.defaults sticky Db.rejected_statement None
           Db.no_pool_yet) = Raise broken
  ∧ fst (Db.execute_dml Config.defaults sticky Db.rejected_statement None true
           Db.no_pool_yet) = Raise broken.
Proof.
  intros refused broken picky sticky. repeat split; reflexivity.
Qed.

Lemma use_after_close_recreates_pool_witness :
  let w := Db.run_op Config.defaults Db.counting_driver
             Db.TestConnection Db.no_pool_yet in
  let w1 := snd (Db.close_pool Db.counting_driver w) in
  Db._pool w = Some 1%nat
  ∧ Db._pool w1 = None
  ∧ Db._pool (Db.run_op Config.defaults Db.counting_driver
                Db.TestConnection w1) = Some 1%nat
  ∧ fst (Db.perform Config.defaults Db.counting_driver Db.TestConnection w1)
    = Ok (Db.Connected true).
Proof.
  intros w w1.
  destruct (use_after_close_recreates_pool Config.defaults Db.counting_driver
              Db.TestConnection w 1%nat w1 eq_refl eq_refl)
    as (Hnone & Hcreated & _).
  destruct (Hcreated 1%nat _ eq_refl) as [Hsame Hpool].
  split; [reflexivity |]. split; [exact Hnone |]. split; [exact Hpool |].
  rewrite Hsame. reflexivity.
Defined.

(** ** The API Gateway *)

Section ClientFacts.
Import Config Api.
Variable http : Http.
Variable self : ORDSClient.

(** *** What [_make_request] sends and returns *)

Lemma http_error_class response e :
  http_error response = Some e →
  is_RequestException e = true ∧ exn_str e ≠ ""
  ∧ 400 <= status_code response < 600.
Proof.
  unfold http_error.
  destruct (Z.leb_spec 400 (status_code response));
    destruct (Z.ltb_spec (status_code response) 500); simpl;
    try (intros [= <-]; split; [reflexivity |]; split; [| lia];
         simpl; destruct (pretty (status_code response)); discriminate).
  all: destruct (Z.leb_spec 500 (status_code response));
    destruct (Z.ltb_spec (status_code response) 600); simpl;
    try discriminate;
    intros [= <-]; split; [reflexivity |]; split; [| lia];
    simpl; destruct (pretty (status_code response)); discriminate.
Qed.

Lemma http_error_status response :
  400 <= status_code response < 600 → ∃ e, http_error response = Some e.
Proof.
  intros Hs. unfold http_error.
  destruct (Z.leb_spec 400 (status_code response)); [| lia].
  destruct (Z.ltb_spec (status_code response) 500); simpl; [eauto |].
  destruct (Z.leb_spec 500 (status_code response)); [| lia].
  destruct (Z.ltb_spec (status_code response) 600); simpl; [eauto | lia].
Qed.

Lemma http_error_none response :
  ¬ 400 <= status_code response < 600 → http_error response = None.
Proof.
  intros Hs. destruct (http_error response) as [e|] eqn:He; [| reflexivity].
  destruct (http_error_class response e He) as (_ & _ & H). contradiction.
Qed.

Lemma _make_request_sent method endpoint params json_data w :
  sent (snd (_make_request http self method endpoint params json_data w))
    = sent w ++ [request_kwargs self method endpoint params json_data].
Proof.
  unfold _make_request, try_except, mbind, M_bind, requests_request,
    raise_for_status, response_json.
  destruct (send http _ _) as [response|e]; simpl.
  - destruct (http_error response) as [e|] eqn:He; simpl.
    + destruct (http_error_class response e He) as (-> & _). reflexivity.
    + destruct (status_code response =? 204); [reflexivity |].
      destruct (parsed response); [reflexivity |].
      destruct (json_error_is_request_exception http); reflexivity.
  - destruct (is_RequestException e); reflexivity.
Qed.

Lemma _make_request_result method endpoint params json_data w :
  fst (_make_request http self method endpoint params json_data w) =
    match send http (length (sent w))
            (request_kwargs self method endpoint params json_data) with
    | Raise e =>
        if is_RequestException e
        then Ok (PDict {[ "error" := PStr (exn_str e) ]})
        else Raise e
    | Ok response =>
        match http_error response with
        | Some e => Ok (PDict {[ "error" := PStr (exn_str e) ]})
        | None =>
            if status_code response =? 204
            then Ok (PDict {[ "success" := PBool true ]})
            else match parsed response with
                 | Some v => Ok v
                 | None =>
                     if json_error_is_request_exception http
                     then Ok (PDict {[ "error" :=
                            PStr "Expecting value: line 1 column 1 (char 0)" ]})
                     else Raise (Exn ValueError
                            "Expecting value: line 1 column 1 (char 0)")
                 end
        end
    end.
Proof.
  unfold _make_request, try_except, mbind, M_bind, requests_request,
    raise_for_status, response_json.
  destruct (send http _ _) as [response|e]; simpl.
  - destruct (http_error response) as [e|] eqn:He; simpl.
    + destruct (http_error_class response e He) as (-> & _). reflexivity.
    + destruct (status_code response =? 204); [reflexivity |].
      destruct (parsed response); [reflexivity |].
      destruct (json_error_is_request_exception http); reflexivity.
  - destruct (is_RequestException e); reflexivity.
Qed.


Lemma health_check_result w :
  fst (health_check http self w) =
    match fst (_make_request http self "GET" "health" None None w) with
    | Ok (PDict d) => Ok (py_eq_str (default PNone (d !! "status")) "healthy")
    | Ok _ => Ok false
    | Raise e => if is_Exception e then Ok false else Raise e
    end.
Proof.
  unfold health_check, get, try_except, mbind, M_bind.
  destruct (_make_request http self "GET" "health" None None w)
    as [[v|e] w1]; simpl.
  - destruct v; reflexivity.
  - destruct (is_Exception e); reflexivity.
Qed.

(** *** Every call carries the configuration of the session *)

Abbreviation all_conform w := (Forall (conforms self) (sent w)).

Lemma requests_request_conforms r :
  conforms self r → preserves (λ w, all_conform w) (requests_request http r).
Proof.
  intros Hr w Hw. simpl. apply Forall_app. split; [exact Hw |].
  constructor; [exact Hr | constructor].
Qed.

Lemma st_error_conforms msg : preserves (λ w, all_conform w) (Api.st_error msg).
Proof. intros w Hw. exact Hw. Qed.

Lemma raise_for_status_conforms response :
  preserves (λ w, all_conform w) (raise_for_status response).
Proof. unfold raise_for_status. keeps_by fail. Qed.

Lemma response_json_conforms response :
  preserves (λ w, all_conform w) (response_json http response).
Proof. unfold response_json. keeps_by fail. Qed.

Lemma _make_request_conforms method endpoint params json_data :
  preserves (λ w, all_conform w)
    (_make_request http self method endpoint params json_data).
Proof.
  unfold _make_request. apply preserves_try_except.
  - keeps_by ltac:(first [ apply raise_for_status_conforms
                         | apply response_json_conforms
                         | apply requests_request_conforms;
                           repeat split ]).
  - intros e. keeps_by ltac:(apply st_error_conforms).
Qed.

Lemma health_check_conforms :
  preserves (λ w, all_conform w) (health_check http self).
Proof.
  unfold health_check, get, py_get. apply preserves_try_except.
  - keeps_by ltac:(apply _make_request_conforms).
  - intros e. apply preserves_ret.
Qed.

Lemma export_recommendations_csv_conforms strategy :
  preserves (λ w, all_conform w) (export_recommendations_csv http self strategy).
Proof.
  unfold export_recommendations_csv. apply preserves_try_except.
  - keeps_by ltac:(first [ apply raise_for_status_conforms
                         | apply requests_request_conforms;
                           repeat split ]).
  - intros e. keeps_by ltac:(apply st_error_conforms).
Qed.

Lemma run_call_conforms c w :
  all_conform w → all_conform (run_call http self c w).
Proof.
  intros Hw. destruct c; simpl;
    first [ apply _make_request_conforms, Hw
          | apply health_check_conforms, Hw
          | apply export_recommendations_csv_conforms, Hw ].
Qed.

Lemma run_calls_conforms cs w :
  all_conform w → all_conform (run_calls http self cs w).
Proof.
  revert w. induction cs as [|c cs IH]; intros w Hw; simpl.
  - exact Hw.
  - apply IH, run_call_conforms, Hw.
Qed.

(** *** Failures become envelopes *)




(** *** No Content *)

(** C7. When the response to the call has status 204, [_make_request]
    returns exactly the dict [{"success": True}]. *)
Theorem no_content_becomes_success method endpoint params json_data w response :
  send http (length (sent w))
    (request_kwargs self method endpoint params json_data) = Ok response →
  status_code response = 204 →
  _make_request http self method endpoint params json_data w
    = (Ok (PDict {[ "success" := PBool true ]}),
       {| sent := sent w ++
            [request_kwargs self method endpoint params json_data];
          screen := screen w |}).
Proof.
  intros Hsend Hstatus.
  unfold _make_request, try_except, mbind, M_bind, requests_request,
    raise_for_status.
  rewrite Hsend. simpl.
  rewrite http_error_none by lia. simpl. rewrite Hstatus. reflexivity.
Qed.

(** *** The strategy filter *)

(** C10. [get_recommendations] sends one GET request to
    [recommendations].  With no strategy, and with the empty string as
    strategy, its query parameters are [min_savings_pct] and [limit]
    and nothing else: there is no [strategy] key.  With a strategy that
    is not empty, they hold that strategy under [strategy] as well,
    unchanged. *)
Theorem strategy_sent_only_when_truthy strategy min_savings_pct limit w :
  ∃ sent_params : gmap string pyval,
    sent (snd (get_recommendations http self strategy min_savings_pct limit w))
      = sent w ++
          [request_kwargs self "GET" "recommendations" (Some sent_params) None]
    ∧ sent_params !! "min_savings_pct" = Some (PFloat min_savings_pct)
    ∧ sent_params !! "limit" = Some (PInt limit)
    ∧ (strategy = None ∨ strategy = Some "" →
       sent_params !! "strategy" = None
       ∧ dom sent_params = {[ "min_savings_pct"; "limit" ]})
    ∧ (∀ s, strategy = Some s → s ≠ "" →
       sent_params !! "strategy" = Some (PStr s)
       ∧ dom sent_params = {[ "min_savings_pct"; "limit"; "strategy" ]}).
Proof.
  unfold get_recommendations, get. eexists.
  split; [apply _make_request_sent |].
  assert (∀ s : string, s ≠ "" → str_truthy s = true) as Htruthy
    by (intros [|c s] Hs; [contradiction | reflexivity]).
  assert (dom ({[ "min_savings_pct" := PFloat min_savings_pct;
                  "limit" := PInt limit ]} : gmap string pyval)
          = {[ "min_savings_pct"; "limit" ]}) as Hdom
    by (rewrite dom_insert_L, dom_singleton_L; reflexivity).
  destruct strategy as [s|].
  - destruct (decide (s = "")) as [->|Hs].
    + simpl. split; [reflexivity |]. split; [reflexivity |]. split.
      * intros _. split; [reflexivity | exact Hdom].
      * intros s [= <-] Hne. contradiction.
    + rewrite (Htruthy s Hs).
      split; [reflexivity |]. split; [reflexivity |]. split.
      * intros [H|[= H]]; [discriminate | contradiction].
      * intros s' [= <-] _. split; [apply lookup_insert_eq |].
        rewrite dom_insert_L, Hdom. set_solver.
  - split; [reflexivity |]. split; [reflexivity |]. split.
    + intros _. split; [reflexivity | exact Hdom].
    + intros s [=].
Qed.

End ClientFacts.

(** C1, as the code has it.  Every request a client built from the
    configuration has sent, through [_make_request] under any of its
    operations or through the export, carries HTTP Basic credentials
    made of the configured user name and password, and the configured
    timeout.  Its TLS-verification flag is the one of the session, and
    that flag is off whatever the configuration holds: the constructor
    sets it to [False] and reads no setting.  None goes out without
    credentials. *)
Theorem every_request_carries_session_configuration cfg http calls r :
  r ∈ Api.sent (Api.run_calls http (Api.init cfg) calls Api.idle) →
  Api.auth r = Some {| Api.auth_username := Config.ORDS_USERNAME cfg;
                       Api.auth_password := Config.ORDS_PASSWORD cfg |}
  ∧ Api.timeout r = Some (Config.API_TIMEOUT cfg)
  ∧ Api.verify r = Api.verify_ssl (Api.init cfg)
  ∧ Api.verify r = false.
Proof.
  intros Hr.
  assert (Forall (Api.conforms (Api.init cfg))
            (Api.sent (Api.run_calls http (Api.init cfg) calls Api.idle)))
    as Hall by (apply run_calls_conforms; constructor).
  rewrite Forall_forall in Hall.
  destruct (Hall r Hr) as (Hauth & Htimeout & Hverify).
  split; [exact Hauth |]. split; [exact Htimeout |].
  split; [exact Hverify |]. rewrite Hverify. reflexivity.
Qed.

(** *** The client at work

    A client built from the default configuration. *)

Lemma every_request_carries_session_configuration_witness :
  let http := Api.answering 200 "OK" (Some (PDict {[ "items" := PList [] ]})) in
  let r := Api.request_kwargs (Api.init Config.defaults)
             "GET" "recommendations/7" None None in
  Api.auth r = Some {| Api.auth_username := "hcc_advisor";
                       Api.auth_password := "" |}
  ∧ Api.timeout r = Some 30
  ∧ Api.verify r = Api.verify_ssl (Api.init Config.defaults)
  ∧ Api.verify r = false.
Proof.
  intros http r.
  apply (every_request_carries_session_configuration Config.defaults http
           [Api.HealthCheck; Api.GetRecommendationDetails 7;
            Api.ExportRecommendationsCsv None] r).
  vm_compute. apply list_elem_of_further, list_elem_of_here.
Defined.

(** C1 as the specification has it fails on TLS verification, which no
    setting gives: under the default configuration, where [SSL_ENABLED]
    is true, the one request of [health_check] goes out with
    verification off. *)
Lemma tls_verification_is_off_though_ssl_is_enabled :
  let http := Api.answering 200 "OK"
                (Some (PDict {[ "status" := PStr "healthy" ]})) in
  let self := Api.init Config.defaults in
  Config.SSL_ENABLED Config.defaults = true
  ∧ ∃ r, Api.sent (Api.run_calls http self [Api.HealthCheck] Api.idle) = [r]
         ∧ Api.verify r = false.
Proof.
  intros http self. split; [reflexivity |].
  eexists. split; reflexivity.
Qed.



Lemma no_content_becomes_success_witness :
  fst (Api._make_request (Api.answering 204 "No Content" None)
         (Api.init Config.defaults) "DELETE" "recommendations/7" None None
         Api.idle)
    = Ok (PDict {[ "success" := PBool true ]}).
Proof.
  erewrite (no_content_becomes_success (Api.answering 204 "No Content" None)
              (Api.init Config.defaults) "DELETE" "recommendations/7"
              None None Api.idle);
    reflexivity.
Defined.

Lemma strategy_sent_only_when_truthy_witness :
  let http := Api.answering 200 "OK" (Some (PDict {[ "items" := PList [] ]})) in
  let self := Api.init Config.defaults in
  (∃ sent_params : gmap string pyval,
     Api.sent (snd (Api.get_recommendations http self (Some "") 10 100 Api.idle))
       = [Api.request_kwargs self "GET" "recommendations" (Some sent_params) None]
     ∧ sent_params !! "strategy" = None)
  ∧ (∃ sent_params : gmap string pyval,
       Api.sent (snd (Api.get_recommendations http self (Some "QUERY HIGH")
                        10 50 Api.idle))
         = [Api.request_kwargs self "GET" "recommendations"
              (Some sent_params) None]
       ∧ sent_params !! "strategy" = Some (PStr "QUERY HIGH")).
Proof.
  intros http self. split.
  - destruct (strategy_sent_only_when_truthy http self (Some "") 10 100 Api.idle)
      as (sent_params & Hsent & _ & _ & Hnone & _).
    exists sent_params. split; [exact Hsent |].
    apply Hnone. right. reflexivity.
  - destruct (strategy_sent_only_when_truthy http self (Some "QUERY HIGH")
                10 50 Api.idle)
      as (sent_params & Hsent & _ & _ & _ & Hsome).
    exists sent_params. split; [exact Hsent |].
    apply (Hsome "QUERY HIGH"); [reflexivity | discriminate].
Defined.

(** ** More on the Session Guard *)

Section GuardMore.
Import Config Auth.
Variable cfg : Config.
Variable clock : nat → Z.
Abbreviation MAX := (MAX_LOGIN_ATTEMPTS cfg).
Abbreviation attempts w := (login_attempts (session_state w)).

(** *** Initialization and the gate *)

Lemma initialize_session_state_spec w :
  initialize_session_state clock w =
    (Ok (),
     {| session_state :=
          {| authenticated := Some (default false (authenticated (session_state w)));
             login_attempts := Some (default 0 (attempts w));
             last_activity :=
               Some (default (clock (now_calls w)) (last_activity (session_state w)));
             username := Some (default None (username (session_state w))) |};
        now_calls := if last_activity (session_state w) is None
                     then S (now_calls w) else now_calls w;
        screen := screen w |}).
Proof.
  destruct w as [[a l t u] n scr]. destruct a, l, t, u; reflexivity.
Qed.

(** X1. With a timeout that [timedelta] can hold,
    [require_authentication] lets the page run on only for an
    authenticated session: when it returns, [authenticated] is true and
    nothing has been put on the page.  Otherwise it ends the run, with
    [st.stop()] and a session that is not authenticated, or with
    [st.rerun()] after a login that has just succeeded; it ends in no
    other way, whatever the session bag held.  With a timeout that
    [timedelta] cannot hold it never gets that far: every call ends in
    [OverflowError], with nothing shown and the session initialized and
    otherwise as it was. *)
Theorem require_authentication_gate input w :
  match require_authentication cfg clock input w with
  | (Ok _, w') =>
      window_in_range cfg
      ∧ authenticated (session_state w') = Some true ∧ screen w' = screen w
  | (Raise e, w') =>
      (window_in_range cfg
       ∧ e = Exn StopException "st.stop()"
       ∧ authenticated (session_state w') = Some false)
      ∨ (window_in_range cfg
         ∧ e = Exn RerunException "st.rerun()"
         ∧ authenticated (session_state w') = Some true
         ∧ attempts w' = Some 0)
      ∨ (¬ window_in_range cfg
         ∧ exn_class e = OverflowError
         ∧ w' = snd (initialize_session_state clock w))
  end.
Proof.
  unfold require_authentication, window_in_range.
  unfold mbind at 1, M_bind at 1. rewrite initialize_session_state_spec.
  destruct (timedelta_in_range (SESSION_TIMEOUT_MINUTES cfg)) eqn:Hrange.
  - destruct w as [[[[|]|] [l|] [t|] [u|]] n scr]; simpl.
    all: unfold check_session_timeout, timedelta_minutes, show_login_page,
           login, is_authenticated, update_activity, logout, mbind, M_bind,
           gets, update, show, modify, datetime_now, raise, mret, M_ret,
           missing_attribute.
    all: simpl; rewrite Hrange; simpl.
    all: repeat match goal with
           | |- context [if ?b then _ else _] => destruct b eqn:?; simpl
           | |- context [match ?x with Some _ => _ | None => _ end] =>
               destruct x eqn:?; simpl
           end.
    all: first [ split; [reflexivity |]; split; reflexivity
               | left; split; [reflexivity |]; split; reflexivity
               | right; left; repeat split; reflexivity ].
  - unfold check_session_timeout, timedelta_minutes, mbind, M_bind, gets.
    simpl. rewrite Hrange. simpl.
    right. right. split; [discriminate |]. split; reflexivity.
Qed.

(** X2. [initialize_session_state] fills in the keys that are missing
    and leaves every key that is present as it is, so a session that is
    logged in stays logged in over a new run of the page; it reads the
    clock only when [last_activity] is missing, and run again it changes
    nothing. *)
Theorem initialize_session_state_fills_only_missing_keys w :
  let s := session_state w in
  let w' := snd (initialize_session_state clock w) in
  let s' := session_state w' in
  fst (initialize_session_state clock w) = Ok ()
  ∧ authenticated s' = Some (default false (authenticated s))
  ∧ login_attempts s' = Some (default 0 (login_attempts s))
  ∧ username s' = Some (default None (username s))
  ∧ (∀ t, last_activity s = Some t → last_activity s' = Some t ∧ now_calls w' = now_calls w)
  ∧ (last_activity s = None →
     last_activity s' = Some (clock (now_calls w)) ∧ now_calls w' = S (now_calls w))
  ∧ initialize_session_state clock w' = (Ok (), w').
Proof.
  intros s w' s'. subst s s' w'. rewrite initialize_session_state_spec.
  simpl.
  split; [reflexivity |]. split; [reflexivity |]. split; [reflexivity |].
  split; [reflexivity |].
  split; [intros t Ht; rewrite Ht; split; reflexivity |].
  split; [intros Ht; rewrite Ht; split; reflexivity |].
  rewrite initialize_session_state_spec. reflexivity.
Qed.

(** X3. Showing the login page without a submission, or with an empty
    password submitted, leaves the session bag as it is: an empty
    password is not counted as a failed attempt, and the clock is not
    read. *)
Theorem empty_submission_is_not_an_attempt input w :
  submit_button input = false ∨ password_input input = "" →
  session_state (snd (show_login_page cfg clock input w)) = session_state w
  ∧ now_calls (snd (show_login_page cfg clock input w)) = now_calls w.
Proof.
  intros Hinput. destruct input as [password submit]. simpl in Hinput.
  assert (submit = false ∨ str_truthy password = false) as [->| Hp]
    by (destruct Hinput as [?| ->]; auto).
  - unfold show_login_page, mbind, M_bind, gets, show, modify, missing_attribute, raise. simpl.
    destruct (attempts w) as [n|]; simpl; [| auto].
    destruct (n >? 0); simpl; auto.
  - unfold show_login_page, mbind, M_bind, gets, show, modify, missing_attribute, raise. simpl.
    rewrite Hp. destruct submit; simpl;
      (destruct (attempts w) as [n|]; simpl; [| auto]);
      destruct (n >? 0); simpl; auto.
Qed.


(** *** Lock-out *)

Lemma run_op_locked op w n :
  attempts w = Some n → MAX <= n →
  attempts (run_op cfg clock op w) = Some n
  ∧ (authenticated (session_state w) ≠ Some true →
     authenticated (session_state (run_op cfg clock op w)) ≠ Some true).
Proof.
  intros Hn Hmax.
  assert ((n >=? MAX) = true) as Hge by (apply Z.geb_le; lia).
  destruct op as [password| | |input]; simpl.
  - rewrite (login_locked cfg clock password w n Hn Hmax). simpl. auto.
  - split; [exact Hn | discriminate].
  - rewrite check_session_timeout_spec.
    destruct (last_activity (session_state w)) as [t|]; [| auto].
    destruct (timedelta_in_range _); [| auto].
    destruct (_ >? _); simpl; [| auto]. split; [exact Hn | discriminate].
  - unfold require_authentication.
    unfold mbind at 1, M_bind at 1. rewrite initialize_session_state_spec.
    destruct w as [[a l t u] k scr]. simpl in Hn. subst l.
    destruct a as [[|]|], t as [t|], u as [u|]; simpl.
    all: unfold check_session_timeout, timedelta_minutes, show_login_page,
           login, is_authenticated, update_activity, logout, mbind, M_bind,
           gets, update, show, modify, datetime_now, raise, mret, M_ret,
           missing_attribute.
    all: simpl; rewrite ?Hge; simpl.
    all: repeat match goal with
           | |- context [if ?b then _ else _] =>
               destruct b eqn:?; simpl; rewrite ?Hge; simpl
           end.
    all: split; [reflexivity | congruence].
Qed.

(** X4. Once the failed-attempt counter has reached the maximum, no
    sequence of guard operations brings it down: the counter keeps its
    value, every later login is rejected whatever the password, and a
    session that was not authenticated never becomes so.  Neither
    [logout] nor the idle timeout lifts the lock. *)
Theorem lockout_is_permanent ops w n :
  attempts w = Some n → MAX <= n →
  let w' := run_ops cfg clock ops w in
  attempts w' = Some n
  ∧ (∀ password, fst (login cfg clock password w') = Ok false)
  ∧ (authenticated (session_state w) ≠ Some true →
     authenticated (session_state w') ≠ Some true).
Proof.
  intros Hn Hmax w'. subst w'.
  assert (attempts (run_ops cfg clock ops w) = Some n
          ∧ (authenticated (session_state w) ≠ Some true →
             authenticated (session_state (run_ops cfg clock ops w)) ≠ Some true))
    as [Hn' Hauth].
  { revert w Hn. induction ops as [|op ops IH]; intros w Hn; simpl.
    - auto.
    - destruct (run_op_locked op w n Hn Hmax) as [Hn1 Ha1].
      destruct (IH _ Hn1) as [Hn2 Ha2]. auto. }
  split; [exact Hn' |]. split; [| exact Hauth].
  intros password.
  rewrite (login_locked cfg clock password _ n Hn' Hmax). reflexivity.
Qed.

(** *** Counting wrong attempts *)

Lemma wrong_logins_count ps w n :
  attempts w = Some n → n <= MAX →
  Forall (λ p, p ≠ DASHBOARD_PASSWORD cfg) ps →
  attempts (run_ops cfg clock (Login <$> ps) w)
    = Some (Z.min (n + Z.of_nat (length ps)) MAX).
Proof.
  intros Hn Hle Hps. revert w n Hn Hle.
  induction Hps as [|p ps Hp Hps IH]; intros w n Hn Hle; simpl.
  - rewrite Hn. f_equal. lia.
  - destruct (Z.lt_ge_cases n MAX) as [Hlt|Hge].
    + rewrite (login_wrong cfg clock p w n Hn Hlt Hp). simpl.
      rewrite (IH _ (n + 1)); [f_equal; lia | reflexivity | lia].
    + rewrite (login_locked cfg clock p w n Hn Hge). simpl.
      rewrite (IH _ n); [f_equal; lia | exact Hn | lia].
Qed.

(** X5. From a fresh session, after any sequence of logins with wrong
    passwords the counter holds the number of those logins, capped at
    the maximum; a login with the configured password then succeeds
    exactly when fewer wrong logins than the maximum were made. *)
Theorem wrong_attempts_then_configured_password ps :
  0 <= MAX →
  Forall (λ p, p ≠ DASHBOARD_PASSWORD cfg) ps →
  let w := run_ops cfg clock (Login <$> ps) (initial_world clock) in
  attempts w = Some (Z.min (Z.of_nat (length ps)) MAX)
  ∧ (fst (login cfg clock (DASHBOARD_PASSWORD cfg) w) = Ok true
     ↔ Z.of_nat (length ps) < MAX).
Proof.
  intros Hmax Hps w.
  assert (attempts w = Some (Z.min (Z.of_nat (length ps)) MAX)) as Hw.
  { subst w. rewrite (wrong_logins_count ps _ 0); [reflexivity | reflexivity | lia | exact Hps]. }
  split; [exact Hw |].
  destruct (Z.lt_ge_cases (Z.of_nat (length ps)) MAX) as [Hlt|Hge].
  - rewrite (login_right cfg clock w _ Hw) by lia. simpl. tauto.
  - rewrite (login_locked cfg clock _ w _ Hw) by lia. simpl.
    split; [discriminate | lia].
Qed.

(** *** An authenticated session *)

(** X6. With a timeout that [timedelta] can hold and for an
    authenticated session, [require_authentication] read at a time
    within the idle window of [last_activity] lets the page through and
    stamps [last_activity] anew, so the window slides with use; read
    later than that, it warns that the session timed out, shows the
    login form and ends the run, and, unless a password is submitted in
    that very run, leaves the session logged out. *)
Theorem authenticated_session_slides_or_expires input w t :
  window_in_range cfg →
  authenticated (session_state w) = Some true →
  last_activity (session_state w) = Some t →
  let w' := snd (require_authentication cfg clock input w) in
  (clock (now_calls w) - t <= timeout_window cfg →
   fst (require_authentication cfg clock input w) = Ok ()
   ∧ last_activity (session_state w') = Some (clock (S (now_calls w)))
   ∧ authenticated (session_state w') = Some true
   ∧ screen w' = screen w)
  ∧ (clock (now_calls w) - t > timeout_window cfg →
     (∃ e, fst (require_authentication cfg clock input w) = Raise e)
     ∧ (∃ rest, screen w'
                = screen w ++ WarningSessionTimedOut :: LoginForm :: rest)
     ∧ (submit_button input = false →
        fst (require_authentication cfg clock input w)
          = Raise (Exn StopException "st.stop()")
        ∧ authenticated (session_state w') = Some false
        ∧ username (session_state w') = Some None)).
Proof.
  intros Hrange Ha Ht w'. subst w'.
  destruct (require_authentication cfg clock input w) as [r w'] eqn:Hrun.
  unfold require_authentication in Hrun.
  unfold mbind at 1, M_bind at 1 in Hrun.
  rewrite initialize_session_state_spec in Hrun.
  destruct w as [[a l t0 u] k scr]. simpl in Ha, Ht. subst a t0.
  unfold timeout_window. unfold window_in_range in Hrange. simpl in *.
  unfold check_session_timeout, timedelta_minutes, show_login_page, login,
    is_authenticated, update_activity, logout, mbind, M_bind, gets, update,
    show, modify, datetime_now, raise, mret, M_ret, missing_attribute
    in Hrun.
  simpl in Hrun. rewrite Hrange in Hrun. simpl in Hrun.
  split.
  - intros Hle.
    assert ((clock k - t >? SESSION_TIMEOUT_MINUTES cfg * 60 * 1000000)
            = false) as Hgt by (rewrite Z.gtb_ltb; apply Z.ltb_ge; lia).
    rewrite Hgt in Hrun. simpl in Hrun. injection Hrun as <- <-.
    simpl. auto.
  - intros Hlt.
    assert ((clock k - t >? SESSION_TIMEOUT_MINUTES cfg * 60 * 1000000)
            = true) as Hgt by (rewrite Z.gtb_ltb; apply Z.ltb_lt; lia).
    rewrite Hgt in Hrun. simpl in Hrun.
    destruct input as [password submit]. simpl in *.
    destruct submit; simpl in Hrun;
      repeat match type of Hrun with
        | context [if ?b then _ else _] => destruct b eqn:?; simpl in Hrun
        end;
      injection Hrun as <- <-; simpl;
      (split; [eauto |]); (split; [| first [discriminate | auto]]);
      rewrite <- ?app_assoc; simpl; eauto.
Qed.

End GuardMore.

Lemma initialize_session_state_fills_only_missing_keys_witness :
  let clock := λ n : nat, Z.of_nat n * 1000000 in
  let w := snd (Auth.login Config.defaults clock "admin123"
                  (Auth.initial_world clock)) in
  Auth.last_activity
    (Auth.session_state (snd (Auth.initialize_session_state clock w)))
    = Some 1000000
  ∧ Auth.now_calls (snd (Auth.initialize_session_state clock w))
    = Auth.now_calls w.
Proof.
  intros clock w.
  destruct (initialize_session_state_fills_only_missing_keys clock w)
    as (_ & _ & _ & _ & Hkept & _).
  exact (Hkept 1000000 eq_refl).
Defined.

Lemma empty_submission_is_not_an_attempt_witness :
  let clock := λ n : nat, Z.of_nat n * 1000000 in
  let input := {| Auth.password_input := ""; Auth.submit_button := true |} in
  let w := Auth.initial_world clock in
  Auth.session_state (snd (Auth.show_login_page Config.defaults clock input w))
    = Auth.session_state w
  ∧ Auth.now_calls (snd (Auth.show_login_page Config.defaults clock input w))
    = Auth.now_calls w.
Proof.
  intros clock input w.
  apply (empty_submission_is_not_an_attempt Config.defaults clock input w).
  right. reflexivity.
Defined.

Lemma lockout_is_permanent_witness :
  let clock := λ n : nat, Z.of_nat n * 1000000 in
  let locked := Auth.run_ops Config.defaults clock
                  [Auth.Login "a"; Auth.Login "b"; Auth.Login "c"]
                  (Auth.initial_world clock) in
  let later := Auth.run_ops Config.defaults clock
                 [Auth.Logout; Auth.CheckTimeout;
                  Auth.RequireAuthentication
                    {| Auth.password_input := "admin123";
                       Auth.submit_button := true |}]
                 locked in
  Auth.login_attempts (Auth.session_state later) = Some 3
  ∧ fst (Auth.login Config.defaults clock "admin123" later) = Ok false
  ∧ Auth.authenticated (Auth.session_state later) ≠ Some true.
Proof.
  intros clock locked later.
  destruct (lockout_is_permanent Config.defaults clock
              [Auth.Logout; Auth.CheckTimeout;
               Auth.RequireAuthentication
                 {| Auth.password_input := "admin123";
                    Auth.submit_button := true |}]
              locked 3 eq_refl ltac:(simpl; lia))
    as (Hcounter & Hlogin & Hauth).
  split; [exact Hcounter |]. split; [apply Hlogin |].
  apply Hauth. discriminate.
Defined.

Lemma wrong_attempts_then_configured_password_witness :
  let clock := λ n : nat, Z.of_nat n * 1000000 in
  let w := Auth.run_ops Config.defaults clock
             (Auth.Login <$> ["a"; "b"]) (Auth.initial_world clock) in
  Auth.login_attempts (Auth.session_state w) = Some 2
  ∧ fst (Auth.login Config.defaults clock "admin123" w) = Ok true.
Proof.
  intros clock w.
  destruct (wrong_attempts_then_configured_password Config.defaults clock
              ["a"; "b"] ltac:(simpl; lia)
              ltac:(repeat constructor; discriminate))
    as [Hcount Hlogin].
  split; [exact Hcount |]. apply Hlogin. simpl. lia.
Defined.

Lemma authenticated_session_slides_or_expires_witness :
  let clock := λ n : nat, Z.of_nat n * 1000000 in
  let input := {| Auth.password_input := ""; Auth.submit_button := false |} in
  let w := snd (Auth.login Config.defaults clock "admin123"
                  (Auth.initial_world clock)) in
  fst (Auth.require_authentication Config.defaults clock input w) = Ok ()
  ∧ Auth.last_activity
      (Auth.session_state
         (snd (Auth.require_authentication Config.defaults clock input w)))
    = Some 3000000.
Proof.
  intros clock input w.
  destruct (authenticated_session_slides_or_expires Config.defaults clock
              input w 1000000 eq_refl eq_refl eq_refl) as [Hslides _].
  destruct Hslides as (Hok & Hstamp & _); [vm_compute; discriminate |].
  split; [exact Hok | exact Hstamp].
Defined.

(** ** More on the Database Gateway *)

Section GatewayMore.
Import Config Db.
Context {S : Type}.
Variable cfg : Config.
Variable drv : Driver S.
Implicit Types w : World S.

(** *** What crosses the boundary *)

(** X7. None of the four operations lets an [oracledb.Error] through,
    whatever the driver does: an operation that ends in an exception
    ends in one of another class. *)
Theorem operations_never_raise_oracledb_Error op w :
  match fst (perform cfg drv op w) with
  | Ok _ => True
  | Raise e => is_oracledb_Error e = false
  end.
Proof.
  destruct op;
    unfold perform, mbind, M_bind, execute_query, execute_dml,
      execute_procedure, test_connection, try_except;
    match goal with
    | |- context [get_connection cfg drv ?body w] =>
        destruct (get_connection cfg drv body w) as [[a|e] w1]
    end; simpl; trivial;
    destruct (is_oracledb_Error e) eqn:He; simpl; trivial.
Qed.

(** X8. An operation whose code does not ask for a commit never calls
    [conn.commit()]: a query, the connection test and a DML statement
    run with [commit=False] go the same way whatever [conn.commit]
    would do. *)
Theorem no_commit_unless_asked commit op w :
  commits op = false →
  perform cfg (with_commit commit drv) op w = perform cfg drv op w.
Proof.
  destruct op as [query params|statement params [|]|name params|];
    intros Hop; try discriminate; reflexivity.
Qed.

(** *** The pool *)

(** X9. [initialize_pool] does by itself what [get_connection] guards
    it with: with a pool in place it does nothing.  When the driver
    cannot create the pool, the error is raised again to the caller,
    reported first if it is an [oracledb.Error], and [_pool] stays
    empty; when it can, [_pool] holds the new pool and a second call
    does nothing. *)
Theorem initialize_pool_creates_once w :
  initialize_pool cfg drv w = ensure_pool cfg drv w
  ∧ (∀ p, _pool w = Some p → initialize_pool cfg drv w = (Ok (), w))
  ∧ (∀ e w1, initialize_pool cfg drv w = (Raise e, w1) →
       _pool w1 = None ∧ calls w1 = calls w
       ∧ screen w1 =
           screen w ++
             (if is_oracledb_Error e
              then ["Failed to create connection pool: " +:+ exn_str e]
              else []))
  ∧ (∀ w1, initialize_pool cfg drv w = (Ok (), w1) →
       (∃ q, _pool w1 = Some q)
       ∧ initialize_pool cfg drv w1 = (Ok (), w1)).
Proof.
  assert (∀ w, initialize_pool cfg drv w = ensure_pool cfg drv w) as Hsame.
  { intros w0. unfold ensure_pool, mbind, M_bind, gets.
    destruct (_pool w0) as [p|] eqn:Hp; [| reflexivity].
    unfold initialize_pool, mbind, M_bind, gets. rewrite Hp. reflexivity. }
  split; [apply Hsame |]. rewrite !Hsame, ensure_pool_spec.
  split; [| split].
  - intros p ->. reflexivity.
  - intros e w1.
    destruct (_pool w) as [p|] eqn:Hp; [discriminate |].
    destruct (create_pool drv (pool_args cfg) (driver_state w)) as [[q|e'] s];
      [discriminate |].
    intros [= <- <-]. simpl.
    destruct (is_oracledb_Error e'); rewrite ?app_nil_r; auto.
  - intros w1.
    destruct (_pool w) as [p|] eqn:Hp.
    + intros [= <-]. split; [eauto |].
      rewrite Hsame, ensure_pool_spec, Hp. reflexivity.
    + destruct (create_pool drv (pool_args cfg) (driver_state w)) as [[q|e'] s];
        [| discriminate].
      intros [= <-]. split; [simpl; eauto |].
      rewrite Hsame, ensure_pool_spec. reflexivity.
Qed.

(** X10. [close_pool] without a pool does nothing, so closing twice is
    closing once.  When the driver fails to close the pool, the
    exception goes to the caller unreported, an [oracledb.Error] like
    any other, and [_pool] keeps the pool. *)
Theorem close_pool_is_idempotent w :
  (_pool w = None → close_pool drv w = (Ok (), w))
  ∧ (∀ w1, close_pool drv w = (Ok (), w1) →
       _pool w1 = None ∧ close_pool drv w1 = (Ok (), w1))
  ∧ (∀ e w1, close_pool drv w = (Raise e, w1) →
       _pool w1 = _pool w ∧ _pool w ≠ None
       ∧ calls w1 = calls w ∧ screen w1 = screen w).
Proof.
  assert (∀ w, _pool w = None → close_pool drv w = (Ok (), w)) as Hnone.
  { intros w0 Hp. unfold close_pool, mbind, M_bind, gets. rewrite Hp.
    reflexivity. }
  split; [apply Hnone |].
  destruct (_pool w) as [p|] eqn:Hp.
  - rewrite (close_pool_spec drv w p Hp).
    destruct (pool_close drv p (driver_state w)) as [[[]|e'] s]; split.
    + intros w1 [= <-]. split; [reflexivity |]. apply Hnone. reflexivity.
    + intros e w1 [=].
    + intros w1 [=].
    + intros e w1 [= <- <-]. simpl. split; [reflexivity |].
      split; [discriminate | auto].
  - rewrite (Hnone w Hp). split.
    + intros w1 [= <-]. split; [exact Hp | apply Hnone, Hp].
    + intros e w1 [=].
Qed.

(** *** Operations in sequence *)


Ltac untouched :=
  intros ? ?;
  keeps_by ltac:(first [ apply call_untouched
                       | apply st_error_untouched
                       | apply connection_error_untouched ]).





(** *** What is reported *)







(** *** Table statistics *)


End GatewayMore.

Lemma no_commit_unless_asked_witness :
  let refused := λ (_ : Db.Conn) (n : nat), (Raise Db.table_missing, n) in
  let op := Db.ExecuteDml "DELETE FROM t" None false in
  Db.commits op = false
  ∧ Db.perform Config.defaults (Db.with_commit refused Db.counting_driver) op
      Db.no_pool_yet
    = Db.perform Config.defaults Db.counting_driver op Db.no_pool_yet.
Proof.
  intros refused op. split; [reflexivity |].
  apply no_commit_unless_asked. reflexivity.
Defined.

Lemma initialize_pool_creates_once_witness :
  ∃ w1, Db.initialize_pool Config.defaults Db.counting_driver Db.no_pool_yet
          = (Ok (), w1)
        ∧ (∃ q, Db._pool w1 = Some q)
        ∧ Db.initialize_pool Config.defaults Db.counting_driver w1 = (Ok (), w1).
Proof.
  eexists. split; [reflexivity |].
  destruct (initialize_pool_creates_once
              Config.defaults Db.counting_driver Db.no_pool_yet)
    as (_ & _ & _ & Hcreated).
  apply Hcreated. reflexivity.
Defined.

Lemma close_pool_is_idempotent_witness :
  let w := snd (Db.initialize_pool Config.defaults Db.counting_driver
                  Db.no_pool_yet) in
  ∃ w1, Db.close_pool Db.counting_driver w = (Ok (), w1)
        ∧ Db._pool w1 = None
        ∧ Db.close_pool Db.counting_driver w1 = (Ok (), w1).
Proof.
  intros w. eexists. split; [reflexivity |].
  destruct (close_pool_is_idempotent Db.counting_driver w) as (_ & Hclosed & _).
  apply Hclosed. reflexivity.
Defined.




(** ** More on the REST Gateway *)

Section ClientMore.
Import Config Api.
Variable http : Http.
Variable self : ORDSClient.

(** *** One call, one request *)

Lemma health_check_sent w :
  sent (snd (health_check http self w))
    = sent w ++ [request_kwargs self "GET" "health" None None].
Proof.
  pose proof (_make_request_sent http self "GET" "health" None None w) as H.
  unfold health_check, get, try_except, mbind, M_bind.
  destruct (_make_request http self "GET" "health" None None w)
    as [[v|e] w1]; simpl in *.
  - destruct v; exact H.
  - destruct (is_Exception e); exact H.
Qed.

Lemma export_recommendations_csv_sent strategy w :
  ∃ r, sent (snd (export_recommendations_csv http self strategy w))
         = sent w ++ [r].
Proof.
  unfold export_recommendations_csv, try_except, mbind, M_bind,
    requests_request, raise_for_status.
  eexists.
  destruct (send http _ _) as [response|e]; simpl.
  - destruct (http_error response) as [e|] eqn:He; simpl.
    + destruct (http_error_class response e He) as (-> & _). reflexivity.
    + reflexivity.
  - destruct (is_RequestException e); reflexivity.
Qed.

Lemma run_call_sent c w :
  ∃ r, sent (run_call http self c w) = sent w ++ [r].
Proof.
  destruct c; simpl;
    first [ apply export_recommendations_csv_sent
          | eexists; apply health_check_sent
          | eexists; apply _make_request_sent ].
Qed.

(** X14. Every operation of the client calls the [requests] library
    exactly once, however that call ends: the client retries nothing,
    and answers nothing without asking.  A sequence of operations makes
    as many calls as it has operations. *)
Theorem one_request_per_operation cs w :
  ∃ rs, sent (run_calls http self cs w) = sent w ++ rs
        ∧ length rs = length cs.
Proof.
  revert w. induction cs as [|c cs IH]; intros w; simpl.
  - exists []. rewrite app_nil_r. auto.
  - destruct (run_call_sent c w) as [r Hr].
    destruct (IH (run_call http self c w)) as (rs & Hrs & Hlen).
    exists (r :: rs). split; [| simpl; rewrite Hlen; reflexivity].
    rewrite Hrs, Hr, <- app_assoc. reflexivity.
Qed.

(** *** What [_make_request] shows and returns *)

(** X15. What [_make_request] shows and what it gives back go
    together.  When it raises, it has shown nothing, and the exception
    is no [RequestException]: it is one the library raised and the
    [except] clause does not cover.  When it returns, it has shown
    nothing, or it has caught a [RequestException]: it then returns the
    dict [{"error": str(e)}] and has shown the one message
    [API request failed: ...] with the same text. *)
Theorem request_failure_is_reported_once method endpoint params json_data w :
  match _make_request http self method endpoint params json_data w with
  | (Ok v, w') =>
      screen w' = screen w
      ∨ ∃ e, is_RequestException e = true
             ∧ v = PDict {[ "error" := PStr (exn_str e) ]}
             ∧ screen w' = screen w ++ ["API request failed: " +:+ exn_str e]
  | (Raise e, w') => is_RequestException e = false ∧ screen w' = screen w
  end.
Proof.
  unfold _make_request, try_except, mbind, M_bind, requests_request,
    raise_for_status, response_json.
  destruct (send http _ _) as [response|e]; simpl.
  - destruct (http_error response) as [e|] eqn:He; simpl.
    + destruct (http_error_class response e He) as (Hclass & _).
      rewrite Hclass. simpl. right. exists e. auto.
    + destruct (status_code response =? 204); [left; reflexivity |].
      destruct (parsed response); [left; reflexivity |].
      destruct (json_error_is_request_exception http); simpl.
      * right. eexists (Exn RequestsJSONDecodeError _). auto.
      * auto.
  - destruct (is_RequestException e) eqn:He; simpl; [| auto].
    right. exists e. auto.
Qed.

(** *** Health *)

(** X16. [health_check] returns [True] in exactly one case: the call
    is answered, the status is neither an error status nor 204, and the
    body is a JSON object whose [status] is the string [healthy]. *)
Theorem health_check_true_iff w :
  fst (health_check http self w) = Ok true
  ↔ ∃ response d,
      send http (length (sent w)) (request_kwargs self "GET" "health" None None)
        = Ok response
      ∧ ¬ 400 <= status_code response < 600
      ∧ status_code response ≠ 204
      ∧ parsed response = Some (PDict d)
      ∧ d !! "status" = Some (PStr "healthy").
Proof.
  rewrite health_check_result, _make_request_result. split.
  - destruct (send http _ _) as [response|e].
    + destruct (http_error response) as [e|] eqn:He.
      { rewrite lookup_singleton_ne by discriminate. discriminate. }
      destruct (Z.eqb_spec (status_code response) 204) as [H204|H204].
      { rewrite lookup_singleton_ne by discriminate. discriminate. }
      destruct (parsed response) as [v|] eqn:Hparsed.
      * destruct v as [| | | | | |d]; try discriminate.
        intros Htrue. exists response, d.
        split; [reflexivity |]. split.
        { intros Hstatus.
          destruct (http_error_status response Hstatus) as [e' He'].
          congruence. }
        split; [exact H204 |]. split; [exact Hparsed |].
        destruct (d !! "status") as [[| | | |t| |]|]; try discriminate.
        simpl in Htrue. injection Htrue as Htrue.
        apply bool_decide_eq_true_1 in Htrue. subst t. reflexivity.
      * destruct (json_error_is_request_exception http);
          [rewrite lookup_singleton_ne by discriminate |]; discriminate.
    + destruct (is_RequestException e).
      * rewrite lookup_singleton_ne by discriminate. discriminate.
      * destruct (is_Exception e); discriminate.
  - intros (response & d & -> & Hstatus & H204 & -> & Hd).
    rewrite (http_error_none response Hstatus).
    destruct (Z.eqb_spec (status_code response) 204) as [|_]; [contradiction |].
    rewrite Hd. reflexivity.
Qed.

(** *** The address *)

Lemma lstrip_slash_slashes m s : lstrip_slash (slashes m +:+ s) = lstrip_slash s.
Proof. induction m as [|m IH]; [reflexivity | exact IH]. Qed.

Lemma lstrip_slash_head s t : lstrip_slash s ≠ "/" +:+ t.
Proof.
  induction s as [|c s IH]; [discriminate |].
  destruct (Ascii.eqb_spec c "/"%char) as [->|Hc]; [exact IH |].
  assert (lstrip_slash (String c s) = String c s) as ->.
  { destruct c as [[] [] [] [] [] [] [] []]; try reflexivity.
    destruct Hc. reflexivity. }
  intros [= H _]. contradiction.
Qed.

Lemma rstrip_slash_slashes n : rstrip_slash (slashes n) = "".
Proof. induction n as [|n IH]; [reflexivity |]. simpl. rewrite IH. reflexivity. Qed.

Lemma rstrip_slash_app_slashes s n :
  rstrip_slash (s +:+ slashes n) = rstrip_slash s.
Proof.
  induction s as [|c s IH]; simpl; [apply rstrip_slash_slashes |].
  rewrite IH. reflexivity.
Qed.

Lemma rstrip_slash_last s t : rstrip_slash s ≠ t +:+ "/".
Proof.
  revert t. induction s as [|c s IH]; intros t; simpl.
  - destruct t; discriminate.
  - destruct (rstrip_slash s) as [|d rest] eqn:Hs.
    + destruct (Ascii.eqb_spec c "/"%char) as [->|Hc].
      * destruct t; discriminate.
      * destruct t as [|a t]; [intros [= H]; contradiction |].
        intros [= _ H]. destruct t; discriminate.
    + destruct t as [|a t]; [discriminate |].
      intros [= _ H]. exact (IH t H).
Qed.

(** X17. The address of a request is the base address and the endpoint
    joined by one slash: slashes at the end of [ORDS_BASE_URL] and
    slashes at the head of the endpoint make no difference, and neither
    side of the joint keeps one. *)
Theorem url_is_joined_by_one_slash
    cfg u n m method endpoint params json_data :
  let sent_url :=
    url (request_kwargs (init (with_base_url (u +:+ slashes n) cfg))
           method (slashes m +:+ endpoint) params json_data) in
  sent_url
    = url (request_kwargs (init (with_base_url u cfg))
             method endpoint params json_data)
  ∧ sent_url = rstrip_slash u +:+ "/" +:+ lstrip_slash endpoint
  ∧ (∀ t, rstrip_slash u ≠ t +:+ "/")
  ∧ (∀ t, lstrip_slash endpoint ≠ "/" +:+ t).
Proof.
  intros sent_url. subst sent_url. simpl.
  rewrite rstrip_slash_app_slashes, lstrip_slash_slashes.
  split; [reflexivity |]. split; [reflexivity |].
  split; [intros t; apply rstrip_slash_last | intros t; apply lstrip_slash_head].
Qed.

(** *** The date filters *)

(** X18. [get_execution_history] sends one GET request to
    [compression/history].  Its query parameters always hold [limit];
    they hold [start_date] and [end_date] only when the argument is
    given and not empty, each then unchanged and independently of the
    other; they hold no other key. *)
Theorem history_dates_sent_only_when_truthy start_date end_date limit w :
  ∃ sent_params : gmap string pyval,
    sent (snd (get_execution_history http self start_date end_date limit w))
      = sent w ++
          [request_kwargs self "GET" "compression/history"
             (Some sent_params) None]
    ∧ sent_params !! "limit" = Some (PInt limit)
    ∧ (start_date = None ∨ start_date = Some "" →
       sent_params !! "start_date" = None)
    ∧ (∀ d, start_date = Some d → d ≠ "" →
       sent_params !! "start_date" = Some (PStr d))
    ∧ (end_date = None ∨ end_date = Some "" →
       sent_params !! "end_date" = None)
    ∧ (∀ d, end_date = Some d → d ≠ "" →
       sent_params !! "end_date" = Some (PStr d))
    ∧ dom sent_params ⊆ {[ "limit"; "start_date"; "end_date" ]}.
Proof.
  unfold get_execution_history, get. eexists.
  split; [apply _make_request_sent |].
  destruct start_date as [[|c ds]|]; destruct end_date as [[|c' de]|]; simpl;
    (split; [reflexivity |]);
    (split; [intros [H|H]; first [reflexivity | congruence] |]);
    (split; [intros d Hd Hne;
             first [congruence | injection Hd as Hd; rewrite <- Hd; reflexivity] |]);
    (split; [intros [H|H]; first [reflexivity | congruence] |]);
    (split; [intros d Hd Hne;
             first [congruence | injection Hd as Hd; rewrite <- Hd; reflexivity] |]);
    rewrite ?dom_insert_L, dom_singleton_L;
    apply elem_of_subseteq; intros k;
    rewrite ?elem_of_union, !elem_of_singleton; tauto.
Qed.

(** *** The export *)

(** X19. [export_recommendations_csv] sends one [get] request to
    [export/recommendations/csv] under the base address, with the
    credentials, timeout and TLS flag of the session and with query
    parameters that are a dict in every case: empty without a strategy
    or with the empty one, the strategy alone otherwise.  A response
    whose status is no error status comes back as its text, unchanged,
    with nothing shown, whether or not the text is JSON and also for
    204.  An error status and a [RequestException] of the call come
    back as the empty string, with the one message [Export failed: ...];
    any other exception of the call goes to the caller, and nothing is
    shown. *)
Theorem export_returns_text_or_empty_string strategy w :
  ∃ r sent_params,
    sent (snd (export_recommendations_csv http self strategy w)) = sent w ++ [r]
    ∧ method r = "get"
    ∧ url r = base_url self +:+ "/export/recommendations/csv"
    ∧ conforms self r
    ∧ json r = None
    ∧ params r = Some sent_params
    ∧ (strategy = None ∨ strategy = Some "" → sent_params = ∅)
    ∧ (∀ s, strategy = Some s → s ≠ "" →
       sent_params = {[ "strategy" := PStr s ]})
    ∧ match send http (length (sent w)) r with
      | Ok response =>
          match http_error response with
          | None =>
              export_recommendations_csv http self strategy w
              = (Ok (text response),
                 {| sent := sent w ++ [r]; screen := screen w |})
          | Some e =>
              export_recommendations_csv http self strategy w
              = (Ok "",
                 {| sent := sent w ++ [r];
                    screen := screen w ++ ["Export failed: " +:+ exn_str e] |})
          end
      | Raise e =>
          export_recommendations_csv http self strategy w
          = (if is_RequestException e then Ok "" else Raise e,
             {| sent := sent w ++ [r];
                screen :=
                  screen w ++ (if is_RequestException e
                               then ["Export failed: " +:+ exn_str e]
                               else []) |})
      end.
Proof.
  unfold export_recommendations_csv, try_except, mbind, M_bind,
    requests_request, raise_for_status.
  eexists. eexists.
  split.
  { destruct (send http _ _) as [response|e]; simpl.
    - destruct (http_error response) as [e|] eqn:He; simpl.
      + destruct (http_error_class response e He) as (-> & _). reflexivity.
      + reflexivity.
    - destruct (is_RequestException e); reflexivity. }
  split; [reflexivity |]. split; [reflexivity |].
  split; [repeat split |]. split; [reflexivity |].
  split; [reflexivity |].
  split.
  { intros [->| ->]; reflexivity. }
  split.
  { intros [|c s] [= ->] Hs; [contradiction | reflexivity]. }
  destruct (send http _ _) as [response|e]; simpl.
  - destruct (http_error response) as [e|] eqn:He; simpl.
    + destruct (http_error_class response e He) as (-> & _). reflexivity.
    + reflexivity.
  - destruct (is_RequestException e); simpl; rewrite ?app_nil_r; reflexivity.
Qed.

End ClientMore.

Lemma history_dates_sent_only_when_truthy_witness :
  let http := Api.answering 200 "OK" (Some (PDict {[ "items" := PList [] ]})) in
  let self := Api.init Config.defaults in
  ∃ sent_params : gmap string pyval,
    Api.sent (snd (Api.get_execution_history http self
                     (Some "2024-01-01") (Some "") 50 Api.idle))
      = [Api.request_kwargs self "GET" "compression/history"
           (Some sent_params) None]
    ∧ sent_params !! "start_date" = Some (PStr "2024-01-01")
    ∧ sent_params !! "end_date" = None.
Proof.
  intros http self.
  destruct (history_dates_sent_only_when_truthy http self
              (Some "2024-01-01") (Some "") 50 Api.idle)
    as (sent_params & Hsent & _ & _ & Hstart & Hend & _).
  exists sent_params. split; [exact Hsent |].
  split; [apply (Hstart "2024-01-01"); [reflexivity | discriminate] |].
  apply Hend. right. reflexivity.
Defined.

(** ** The configuration checks *)

Section CheckFacts.
Import Config ConnectionTest.
Variable fs : FileSystem.
Variable cfg : Config.
Variable ssl : SslFiles.

Abbreviation cert_path := (under_parent fs (SSL_CERT_FILE ssl)).
Abbreviation key_path := (under_parent fs (SSL_KEY_FILE ssl)).

(** X20. When the file system answers, [validate_config] returns a
    list with one entry for each check that fails, not only the first:
    a password that is empty, and, with SSL enabled, a file that is not
    there.  The list is empty exactly when both passwords are set and,
    if SSL is enabled, both files exist.  With SSL enabled the file
    system is asked twice, once for each file; with SSL disabled it is
    not asked.  Nothing is printed. *)
Theorem validate_config_collects_every_problem (w : Host) c k :
  (SSL_ENABLED cfg = true →
   path_exists fs (asked w) cert_path = Ok c
   ∧ path_exists fs (1 + asked w) key_path = Ok k) →
  ∃ errors,
    validate_config fs cfg ssl w
    = (Ok errors,
       {| asked := (if SSL_ENABLED cfg then 2 else 0) + asked w;
          printed := printed w |})
    ∧ (errors = []
       ↔ DB_PASSWORD cfg ≠ "" ∧ ORDS_PASSWORD cfg ≠ ""
         ∧ (SSL_ENABLED cfg = true → c = true ∧ k = true))
    ∧ length errors
      = (Nat.b2n (negb (str_truthy (DB_PASSWORD cfg)))
         + Nat.b2n (negb (str_truthy (ORDS_PASSWORD cfg)))
         + (if SSL_ENABLED cfg
            then Nat.b2n (negb c) + Nat.b2n (negb k)
            else 0))%nat.
Proof.
  intros Hfs. unfold validate_config, mbind, M_bind, exists_.
  destruct w as [n out]. simpl in *.
  destruct (SSL_ENABLED cfg).
  - destruct (Hfs eq_refl) as [Hc Hk]. simpl. rewrite Hc. simpl. rewrite Hk.
    destruct (DB_PASSWORD cfg), (ORDS_PASSWORD cfg), c, k; simpl;
      eexists; (split; [reflexivity |]); (split; [| reflexivity]);
      (split; [intros Hnil; try discriminate Hnil; repeat split; congruence
              | intros (Hdb & Hords & Hssl);
                first [reflexivity | congruence
                      | destruct (Hssl eq_refl); congruence]]).
  - destruct (DB_PASSWORD cfg), (ORDS_PASSWORD cfg); simpl;
      eexists; (split; [reflexivity |]); (split; [| reflexivity]);
      (split; [intros Hnil; try discriminate Hnil; repeat split; congruence
              | intros (Hdb & Hords & Hssl);
                first [reflexivity | congruence]]).
Qed.

(** X21. On a file system that answers and where the two files do not
    change, the three checks of the SSL files agree.
    [test_ssl_certificates] passes exactly when SSL is disabled or both
    files exist; [get_ssl_context] returns the pair of paths exactly
    when SSL is enabled and both files exist, and [None] otherwise; and
    a configuration that [validate_config] finds no fault with passes
    [test_ssl_certificates]. *)
Theorem ssl_checks_agree (w : Host) c k :
  (∀ n, path_exists fs n cert_path = Ok c) →
  (∀ n, path_exists fs n key_path = Ok k) →
  fst (test_ssl_certificates fs cfg ssl w)
    = Ok (negb (SSL_ENABLED cfg) || c && k)
  ∧ fst (get_ssl_context fs cfg ssl w)
    = Ok (if SSL_ENABLED cfg && c && k
          then Some (cert_path, key_path)
          else None)
  ∧ (fst (validate_config fs cfg ssl w) = Ok [] →
     fst (test_ssl_certificates fs cfg ssl w) = Ok true).
Proof.
  intros Hc Hk.
  unfold test_ssl_certificates, get_ssl_context, validate_config,
    try_except, mbind, M_bind, exists_, print, modify.
  simpl. destruct (SSL_ENABLED cfg); simpl.
  - rewrite !Hc.
    destruct c; simpl; rewrite ?Hk, ?Hc; simpl;
      destruct k; simpl; rewrite ?Hc, ?Hk; simpl;
      (split; [reflexivity |]); (split; [reflexivity |]);
      first [ intros _; reflexivity
            | destruct (DB_PASSWORD cfg), (ORDS_PASSWORD cfg);
              simpl; discriminate ].
  - auto.
Qed.

(** X22. An exception of the file system is handled in one place only.
    [test_ssl_certificates] never lets an [Exception] through: when the
    file system raises one for the certificate, it prints the error and
    returns [False].  [get_ssl_context] and [validate_config], which
    have no handler, raise it to their caller.  None of the three asks
    again. *)
Theorem file_system_error_is_caught_by_the_test_only (w : Host) :
  match fst (test_ssl_certificates fs cfg ssl w) with
  | Ok _ => True
  | Raise e => is_Exception e = false
  end
  ∧ (∀ e, SSL_ENABLED cfg = true →
          path_exists fs (asked w) cert_path = Raise e →
          is_Exception e = true →
          (∃ lines,
             test_ssl_certificates fs cfg ssl w
             = (Ok false,
                {| asked := 1 + asked w;
                   printed := printed w ++ lines
                              ++ ["✗ Error: " +:+ exn_str e] |}))
          ∧ get_ssl_context fs cfg ssl w
            = (Raise e, {| asked := 1 + asked w; printed := printed w |})
          ∧ validate_config fs cfg ssl w
            = (Raise e, {| asked := 1 + asked w; printed := printed w |})).
Proof.
  split.
  - unfold test_ssl_certificates, try_except, mbind, M_bind, exists_, print,
      modify.
    simpl. destruct (SSL_ENABLED cfg); simpl; [| trivial].
    repeat match goal with
           | |- context [path_exists fs ?n ?p] =>
               destruct (path_exists fs n p) as [[|]|?e] eqn:?; simpl
           | |- context [is_Exception ?e] =>
               destruct (is_Exception e) eqn:?; simpl
           end; trivial.
  - intros e Hssl Hcert He.
    unfold test_ssl_certificates, get_ssl_context, validate_config,
      try_except, mbind, M_bind, exists_, print, modify.
    simpl. rewrite Hssl. simpl. rewrite Hcert. simpl. rewrite He. simpl.
    split; [| split; reflexivity].
    exists [String "010"%char rule; "Testing SSL Configuration"; rule;
            "SSL Enabled: True"; "Certificate: " +:+ cert_path;
            "Private Key: " +:+ key_path; ""].
    rewrite <- !app_assoc. reflexivity.
Qed.

(** X23. With SSL enabled, [test_ssl_certificates] asks for each file
    twice.  What it prints comes from the first two answers, and what it
    returns from the later ones: the certificate is asked for again,
    and the key only if the certificate is there. *)
Theorem test_ssl_certificates_asks_twice (w : Host) c1 k1 c2 k2 :
  SSL_ENABLED cfg = true →
  path_exists fs (asked w) cert_path = Ok c1 →
  path_exists fs (1 + asked w) key_path = Ok k1 →
  path_exists fs (2 + asked w) cert_path = Ok c2 →
  (c2 = true → path_exists fs (3 + asked w) key_path = Ok k2) →
  test_ssl_certificates fs cfg ssl w
  = (Ok (c2 && k2),
     {| asked := (if c2 then 4 else 3) + asked w;
        printed :=
          printed w
          ++ [String "010"%char rule; "Testing SSL Configuration"; rule;
              "SSL Enabled: True";
              "Certificate: " +:+ cert_path;
              "Private Key: " +:+ key_path;
              "";
              if c1 then "✓ SSL certificate found"
              else "✗ SSL certificate not found";
              if k1 then "✓ SSL private key found"
              else "✗ SSL private key not found"] |}).
Proof.
  intros Hssl Hc1 Hk1 Hc2 Hk2.
  unfold test_ssl_certificates, try_except, mbind, M_bind, exists_, print,
    modify.
  simpl in *. rewrite Hssl. simpl. rewrite Hc1.
  destruct c1; simpl; rewrite Hk1; destruct k1; simpl; rewrite Hc2;
    destruct c2; simpl; rewrite ?(Hk2 eq_refl); simpl;
    rewrite <- !app_assoc; reflexivity.
Qed.

End CheckFacts.

Lemma validate_config_collects_every_problem_witness :
  ∃ errors,
    Config.validate_config Config.certificates_installed Config.defaults
      Config.ssl_defaults Config.untouched
    = (Ok errors, {| Config.asked := 2; Config.printed := [] |})
    ∧ length errors = 2%nat.
Proof.
  destruct (validate_config_collects_every_problem
              Config.certificates_installed Config.defaults
              Config.ssl_defaults Config.untouched true true)
    as (errors & Hrun & _ & Hlength).
  - intros _. split; reflexivity.
  - exists errors. split; [exact Hrun | exact Hlength].
Defined.

Lemma ssl_checks_agree_witness :
  fst (ConnectionTest.test_ssl_certificates Config.certificates_installed
         Config.defaults Config.ssl_defaults Config.untouched)
    = Ok true
  ∧ fst (Config.get_ssl_context Config.certificates_installed
           Config.defaults Config.ssl_defaults Config.untouched)
    = Ok (Some ("/app/ssl/cert.pem", "/app/ssl/key.pem")).
Proof.
  destruct (ssl_checks_agree Config.certificates_installed Config.defaults
              Config.ssl_defaults Config.untouched true true
              (λ _, eq_refl) (λ _, eq_refl))
    as (Htest & Hcontext & _).
  split; [exact Htest | exact Hcontext].
Defined.

Lemma file_system_error_is_caught_by_the_test_only_witness :
  fst (ConnectionTest.test_ssl_certificates Config.unreadable
         Config.defaults Config.ssl_defaults Config.untouched)
    = Ok false
  ∧ fst (Config.validate_config Config.unreadable
           Config.defaults Config.ssl_defaults Config.untouched)
    = Raise Config.permission_denied.
Proof.
  destruct (file_system_error_is_caught_by_the_test_only Config.unreadable
              Config.defaults Config.ssl_defaults Config.untouched)
    as [_ Hraised].
  destruct (Hraised Config.permission_denied eq_refl eq_refl eq_refl)
    as ((lines & Htest) & _ & Hvalidate).
  rewrite Htest, Hvalidate. split; reflexivity.
Defined.

Lemma test_ssl_certificates_asks_twice_witness :
  ∃ w,
    ConnectionTest.test_ssl_certificates Config.certificate_removed
      Config.defaults Config.ssl_defaults Config.untouched
    = (Ok false, w)
    ∧ Config.asked w = 3%nat
    ∧ "✓ SSL certificate found" ∈ Config.printed w
    ∧ "✓ SSL private key found" ∈ Config.printed w.
Proof.
  eexists. split.
  - apply (test_ssl_certificates_asks_twice Config.certificate_removed
             Config.defaults Config.ssl_defaults Config.untouched
             true true false false);
      [reflexivity | reflexivity | reflexivity | reflexivity | discriminate].
  - simpl. split; [reflexivity |].
    split; repeat first [apply list_elem_of_here | apply list_elem_of_further].
Defined.
